(** * Mini Compete: admission control, confirmation queue and reminders

    A shallow embedding of the registration path of
    [apps/backend/src/competitions/competitions.service.ts], of the queue
    producer [apps/backend/src/queue/queue.service.ts] and of the
    confirmation handler [queue.processor.ts], followed by the properties
    of the specification that concern them.

    Conventions.
    - Identifiers (uuid strings) and idempotency keys are [string]s.
    - Instants ([Date]) are milliseconds since the epoch, in [Z].
    - A table of the database is the list of its rows, oldest first.
    - What the database generates for a new row (its uuid, [now()]) is read
      from an explicit environment [Env].
    - A thrown exception is the [Throw] case of [result]. *)

From Stdlib Require Import ZArith List String Ascii Bool Lia Arith.
From Stdlib Require Import DecimalString.
From Stdlib Require Import Permutation Sorted.
Import ListNotations.
Open Scope string_scope.
Open Scope Z_scope.

(** ** Exceptions and results *)

Inductive Exception : Type :=
| NotFoundException (message : string)
| BadRequestException (message : string)
| ConflictException (message : string)
| PrismaClientKnownRequestError (code : string)
| JsError (message : string).

(** [error.message] *)
Definition message_of (e : Exception) : string :=
  match e with
  | NotFoundException m | BadRequestException m | ConflictException m => m
  | PrismaClientKnownRequestError c => c
  | JsError m => m
  end.

(** The four typed errors of the admission contract, as [register] throws them. *)
Definition NotFound : Exception := NotFoundException "Competition not found".
Definition DeadlineExceeded : Exception :=
  BadRequestException "Registration deadline has passed".
Definition CapacityExceeded : Exception := ConflictException "Competition is full".
Definition AlreadyRegistered : Exception :=
  ConflictException "Already registered for this competition".

(** Prisma's codes for a violated unique constraint and a violated foreign key. *)
Definition P2002 : Exception := PrismaClientKnownRequestError "P2002".
Definition P2003 : Exception := PrismaClientKnownRequestError "P2003".

Inductive result (A : Type) : Type :=
| Ok (a : A)
| Throw (e : Exception).
Arguments Ok {A} a.
Arguments Throw {A} e.

(** ** Data model (the Prisma models the core reads and writes) *)

Definition Id : Type := string.
Definition Instant : Type := Z.

Record User : Type := {
  user_id : Id;
  user_name : string;
  user_email : string
}.

Record Competition : Type := {
  comp_id : Id;
  title : string;
  capacity : Z;
  regDeadline : Instant;
  startDate : option Instant;
  comp_deletedAt : option Instant
}.

Record Registration : Type := {
  reg_id : Id;
  userId : Id;
  competitionId : Id;
  idempotencyKey : option string;
  registeredAt : Instant;
  reg_deletedAt : option Instant
}.

Inductive EmailType : Type := confirmation | reminder.

(** [interface EmailJob] *)
Record EmailJob : Type := {
  job_registrationId : Id;
  job_userId : Id;
  job_competitionId : Id;
  type : EmailType
}.

Record MailBox : Type := {
  mail_id : Id;
  mail_userId : Id;
  to : string;
  subject : string;
  body : string;
  sentAt : Instant;
  jobId : option string
}.

Record FailedJob : Type := {
  jobName : string;
  jobData : EmailJob;
  error : string;
  fj_attempts : nat;
  failedAt : Instant
}.

Record Store : Type := {
  users : list User;
  competitions : list Competition;
  registrations : list Registration;
  mailBox : list MailBox;
  failedJob : list FailedJob
}.

(** What the caller's clock and the database's generators yield during one
    call. *)
Record Env : Type := {
  now : Instant;
  uuid : Id
}.

Definition with_registrations (st : Store) (rs : list Registration) : Store :=
  {| users := users st; competitions := competitions st; registrations := rs;
     mailBox := mailBox st; failedJob := failedJob st |}.

Definition with_mailBox (st : Store) (ms : list MailBox) : Store :=
  {| users := users st; competitions := competitions st;
     registrations := registrations st; mailBox := ms; failedJob := failedJob st |}.

Definition with_failedJob (st : Store) (fs : list FailedJob) : Store :=
  {| users := users st; competitions := competitions st;
     registrations := registrations st; mailBox := mailBox st; failedJob := fs |}.

(** ** Point reads *)

(** JavaScript truthiness of a string: only the empty string is falsy. *)
Definition truthy (s : string) : bool := negb (String.eqb s "").

Definition has_key (k : string) (r : Registration) : bool :=
  match idempotencyKey r with
  | Some k' => String.eqb k' k
  | None => false
  end.

Definition same_pair (u c : Id) (r : Registration) : bool :=
  String.eqb (userId r) u && String.eqb (competitionId r) c.

Definition on_competition (c : Id) (r : Registration) : bool :=
  String.eqb (competitionId r) c.

(** [prisma.registration.findUnique({ where: { idempotencyKey } })] *)
Definition findUnique_idempotencyKey (st : Store) (k : string) : option Registration :=
  find (has_key k) (registrations st).

(** [registration.findUnique({ where: { userId_competitionId: ... } })] *)
Definition findUnique_userId_competitionId (st : Store) (u c : Id)
  : option Registration :=
  find (same_pair u c) (registrations st).

(** [registration.findUnique({ where: { id } })] *)
Definition findUnique_registration (st : Store) (i : Id) : option Registration :=
  find (fun r => String.eqb (reg_id r) i) (registrations st).

(** [competition.findUnique({ where: { id } })] *)
Definition findUnique_competition (st : Store) (i : Id) : option Competition :=
  find (fun c => String.eqb (comp_id c) i) (competitions st).

Definition findUnique_user (st : Store) (i : Id) : option User :=
  find (fun u => String.eqb (user_id u) i) (users st).

(** [_count: { select: { registrations: true } }]: every row that refers to
    the competition, soft-deleted or not. *)
Definition count_registrations (st : Store) (c : Id) : Z :=
  Z.of_nat (List.length (filter (on_competition c) (registrations st))).

(** ** The queue (Bull), as far as the producers use it *)

(** [backoff: { type: 'exponential', ... }], the one strategy the producers ask for. *)
Inductive BackoffType : Type := exponential.

Record JobOptions : Type := {
  attempts : nat;
  backoff_type : BackoffType;
  backoff_delay : Z;
  removeOnComplete : bool;
  removeOnFail : bool
}.

Record Job : Type := {
  job_id : nat;
  name : string;
  data : EmailJob;
  opts : JobOptions;
  attemptsMade : nat
}.

(** [redis_up] tells whether [add] can reach Redis; [delayed] pairs a job
    with the instant from which it may run again. *)
Record Queue : Type := {
  redis_up : bool;
  next_job_id : nat;
  waiting : list Job;
  delayed : list (Instant * Job);
  failed : list Job;
  completed : list Job
}.

(** Modelled from the spec: [emailQueue.add(name, data, opts)], the enqueue
    of the queue library, whose code is not under src/.  Section 4.3:
    enqueue(kind, payload, options) gives the task an id and leaves it in
    the queue, no attempt made; it throws when the queue cannot be
    reached. *)
Definition add (q : Queue) (n : string) (d : EmailJob) (o : JobOptions)
  : result Job * Queue :=
  if redis_up q then
    let job := {| job_id := next_job_id q; name := n; data := d; opts := o;
                  attemptsMade := 0 |} in
    (Ok job,
     {| redis_up := redis_up q; next_job_id := S (next_job_id q);
        waiting := (waiting q ++ [job])%list; delayed := delayed q;
        failed := failed q; completed := completed q |})
  else (Throw (JsError "connect ECONNREFUSED"), q).

(** [QueueService.addConfirmationEmail] *)
Definition addConfirmationEmail (q : Queue) (registrationId u c : Id)
  : result Job * Queue :=
  add q "sendConfirmation"
    {| job_registrationId := registrationId; job_userId := u;
       job_competitionId := c; type := confirmation |}
    {| attempts := 3; backoff_type := exponential; backoff_delay := 2000;
       removeOnComplete := true; removeOnFail := false |}.

(** [QueueService.addReminderEmail]; the two removal options are left to
    Bull's defaults, which keep the job. *)
Definition addReminderEmail (q : Queue) (registrationId u c : Id)
  : result Job * Queue :=
  add q "sendReminder"
    {| job_registrationId := registrationId; job_userId := u;
       job_competitionId := c; type := reminder |}
    {| attempts := 3; backoff_type := exponential; backoff_delay := 2000;
       removeOnComplete := false; removeOnFail := false |}.

(** ** [CompetitionsService.register] *)

(** What [register] hands back: the row, and the relations the [include]
    clause of the query asked for. *)
Record RegistrationPayload : Type := {
  row : Registration;
  include_competition : option Competition;
  include_user : option User
}.

(** The result of a query without [include]. *)
Definition bare (r : Registration) : RegistrationPayload :=
  {| row := r; include_competition := None; include_user := None |}.

(** The row the database makes of [data: { userId, competitionId,
    idempotencyKey }]: [id] and [registeredAt] take their defaults, [uuid()]
    and [now()]. *)
Definition new_registration (env : Env) (u c : Id) (key : option string)
  : Registration :=
  {| reg_id := uuid env; userId := u; competitionId := c;
     idempotencyKey := key; registeredAt := now env; reg_deletedAt := None |}.

(** [tx.registration.create({ data: { userId, competitionId, idempotencyKey },
    include: { competition: true, user: ... } })].  The database refuses the
    row when it breaks [@@unique([userId, competitionId])] or the [@unique]
    of the key column (where NULLs never collide), or when one of the two
    references dangles. *)
Definition create_registration (env : Env) (st : Store) (u c : Id)
    (key : option string) : result RegistrationPayload * Store :=
  let dup_pair := existsb (same_pair u c) (registrations st) in
  let dup_key :=
    match key with
    | Some k => existsb (has_key k) (registrations st)
    | None => false
    end in
  if dup_pair || dup_key then (Throw P2002, st)
  else
    match findUnique_competition st c, findUnique_user st u with
    | Some comp, Some usr =>
        let r := new_registration env u c key in
        (Ok {| row := r; include_competition := Some comp;
               include_user := Some usr |},
         with_registrations st (registrations st ++ [r])%list)
    | _, _ => (Throw P2003, st)
    end.

(** The checks between the read of the competition and the second read. *)
Definition check_competition (env : Env) (found : option Competition)
    (count : Z) : result Competition :=
  match found with
  | None => Throw NotFound
  | Some competition =>
      match comp_deletedAt competition with
      | Some _ => Throw NotFound
      | None =>
          if now env >? regDeadline competition then Throw DeadlineExceeded
          else if count >=? capacity competition then Throw CapacityExceeded
          else Ok competition
      end
  end.

(** The callback given to [prisma.$transaction]. *)
Definition admission (env : Env) (u c : Id) (key : option string) (st : Store)
  : result RegistrationPayload * Store :=
  let found := findUnique_competition st c in
  let count := count_registrations st c in
  match check_competition env found count with
  | Throw e => (Throw e, st)
  | Ok _ =>
      match findUnique_userId_competitionId st u c with
      | Some _ => (Throw AlreadyRegistered, st)
      | None => create_registration env st u c key
      end
  end.

(** [prisma.$transaction(callback)]: commit on return, roll back on throw. *)
Definition transaction {A : Type} (callback : Store -> result A * Store)
    (st : Store) : result A * Store :=
  match callback st with
  | (Ok a, st') => (Ok a, st')
  | (Throw e, _) => (Throw e, st)
  end.

(** The idempotency check that opens [register]: the lookup runs only for a
    truthy key. *)
Definition idempotency_lookup (st : Store) (key : option string)
  : option Registration :=
  match key with
  | Some k => if truthy k then findUnique_idempotencyKey st k else None
  | None => None
  end.

Definition register (env : Env) (st : Store) (q : Queue) (c u : Id)
    (key : option string) : result RegistrationPayload * Store * Queue :=
  match idempotency_lookup st key with
  | Some existing => (Ok (bare existing), st, q)
  | None =>
      match transaction (admission env u c key) st with
      | (Throw e, st') => (Throw e, st', q)
      | (Ok registration, st') =>
          (* try { await addConfirmationEmail(...) } catch { console.error } *)
          let '(_, q') :=
            addConfirmationEmail q (reg_id (row registration)) u c in
          (Ok registration, st', q')
      end
  end.

(** ** [QueueProcessor.handleConfirmation] *)

Definition nl : string := String (ascii_of_nat 10) "".

Definition confirmation_subject (c : Competition) : string :=
  "Registration Confirmed: " ++ title c.

Definition confirmation_body (u : User) (c : Competition) : string :=
  "Dear " ++ user_name u ++ "," ++ nl ++ nl ++
  "You have successfully registered for " ++ title c ++ "." ++ nl ++ nl ++
  "Best regards," ++ nl ++ "Mini Compete Team".

(** [job.id?.toString()] *)
Definition job_id_string (j : Job) : string :=
  NilEmpty.string_of_uint (Nat.to_uint (job_id j)).

(** The body of the [try] block: read the registration with its user and
    competition, then create the [MailBox] row.  [MailBox.userId] refers to
    a user, so the row is refused when [job.data.userId] dangles. *)
Definition send_confirmation (env : Env) (st : Store) (job : Job)
  : result bool * Store :=
  match findUnique_registration st (job_registrationId (data job)) with
  | None => (Throw (JsError "Registration not found"), st)
  | Some registration =>
      match findUnique_user st (userId registration),
            findUnique_competition st (competitionId registration) with
      | Some user, Some competition =>
          match findUnique_user st (job_userId (data job)) with
          | None => (Throw P2003, st)
          | Some _ =>
              (Ok true,
               with_mailBox st
                 (mailBox st ++
                  [{| mail_id := uuid env;
                      mail_userId := job_userId (data job);
                      to := user_email user;
                      subject := confirmation_subject competition;
                      body := confirmation_body user competition;
                      sentAt := now env;
                      jobId := Some (job_id_string job) |}])%list)
          end
      | _, _ => (Throw (JsError "Cannot read properties of null"), st)
      end
  end.

(** The whole handler: whatever the [try] block throws is recorded in
    [FailedJob] with [job.attemptsMade], and thrown again. *)
Definition handleConfirmation (env : Env) (st : Store) (job : Job)
  : result bool * Store :=
  match send_confirmation env st job with
  | (Ok r, st') => (Ok r, st')
  | (Throw e, st') =>
      (Throw e,
       with_failedJob st'
         (failedJob st' ++
          [{| jobName := "sendConfirmation"; jobData := data job;
              error := message_of e; fj_attempts := attemptsMade job;
              failedAt := now env |}])%list)
  end.

(** ** The worker *)

Definition with_waiting (q : Queue) (w : list Job) : Queue :=
  {| redis_up := redis_up q; next_job_id := next_job_id q; waiting := w;
     delayed := delayed q; failed := failed q; completed := completed q |}.

Definition with_attemptsMade (j : Job) (n : nat) : Job :=
  {| job_id := job_id j; name := name j; data := data j; opts := opts j;
     attemptsMade := n |}.

(** Modelled from the spec: the delay before the next attempt, which the
    queue library computes and whose code is not under src/.  Section 4.4:
    delay = backoffBase * 2^(attempts - 1), attempts being the counter after
    its increment. *)
Definition backoff (o : JobOptions) (attempts_made : nat) : Z :=
  match backoff_type o with
  | exponential => backoff_delay o * 2 ^ (Z.of_nat attempts_made - 1)
  end.

(** Modelled from the spec: the bookkeeping of the worker after a handler
    has thrown, which the queue library does and whose code is not under
    src/.  Section 4.4: the attempt counter increments; below [attempts] the
    task is rescheduled after the backoff delay, otherwise it leaves the
    queue for good ([removeOnFail: false] keeps it in the failed set).  The
    Dead Letter Store is the [FailedJob] table, which only the handler
    writes. *)
Definition moveToFailed (t : Instant) (q : Queue) (job : Job) : Queue :=
  let job' := with_attemptsMade job (S (attemptsMade job)) in
  if (attemptsMade job' <? attempts (opts job'))%nat then
    {| redis_up := redis_up q; next_job_id := next_job_id q;
       waiting := waiting q;
       delayed :=
         (delayed q
          ++ [(t + backoff (opts job') (attemptsMade job'), job')])%list;
       failed := failed q; completed := completed q |}
  else if removeOnFail (opts job') then q
  else
    {| redis_up := redis_up q; next_job_id := next_job_id q;
       waiting := waiting q; delayed := delayed q;
       failed := (failed q ++ [job'])%list; completed := completed q |}.

(** Modelled from the spec: a handler that returned; the task is removed
    ([removeOnComplete: false] keeps a record of it).  The queue library's
    code is not under src/. *)
Definition moveToCompleted (q : Queue) (job : Job) : Queue :=
  if removeOnComplete (opts job) then q
  else
    {| redis_up := redis_up q; next_job_id := next_job_id q;
       waiting := waiting q; delayed := delayed q; failed := failed q;
       completed := (completed q ++ [job])%list |}.

(** Modelled from the spec: delayed tasks whose instant has come become
    eligible again.  The queue library's code is not under src/. *)
Definition promote (t : Instant) (q : Queue) : Queue :=
  {| redis_up := redis_up q; next_job_id := next_job_id q;
     waiting := (waiting q ++ map snd (filter (fun d => fst d <=? t) (delayed q)))%list;
     delayed := filter (fun d => negb (fst d <=? t)) (delayed q);
     failed := failed q; completed := completed q |}.

(** The handlers the processor registers: [@Process('sendConfirmation')] and
    no other; a task of another name finds no handler, which counts as a
    throw. *)
Definition dispatch (env : Env) (st : Store) (job : Job) : result bool * Store :=
  if String.eqb (name job) "sendConfirmation" then handleConfirmation env st job
  else (Throw (JsError "Missing process handler for job type"), st).

(** Modelled from the spec: one turn of a worker, section 4.4: pop the next
    eligible task, dispatch it, and on return remove it or reschedule it.
    The worker loop is the queue library's; its code is not under src/. *)
Definition work (env : Env) (st : Store) (q : Queue) : Store * Queue :=
  let q1 := promote (now env) q in
  match waiting q1 with
  | [] => (st, q1)
  | job :: rest =>
      let q2 := with_waiting q1 rest in
      match dispatch env st job with
      | (Ok _, st') => (st', moveToCompleted q2 job)
      | (Throw _, st') => (st', moveToFailed (now env) q2 job)
      end
  end.

(** Worker turns, one per environment of the list. *)
Fixpoint works (envs : list Env) (st : Store) (q : Queue) : Store * Queue :=
  match envs with
  | [] => (st, q)
  | env :: envs' => let '(st', q') := work env st q in works envs' st' q'
  end.

(** ** The scheduler *)

Definition active (r : Registration) : bool :=
  match reg_deletedAt r with
  | None => true
  | Some _ => false
  end.

(** Modelled from the spec: the lookahead window of the Scheduler, whose
    code (the cron service) is not under src/.  Section 4.5: the start time
    falls within [now + lookahead, now + lookahead + delta). *)
Definition in_window (lookahead delta : Z) (t : Instant) (c : Competition) : bool :=
  match startDate c with
  | Some s => (t + lookahead <=? s) && (s <? t + lookahead + delta)
  | None => false
  end.

(** Modelled from the spec: the registrations a Scheduler run reminds, whose
    code (the cron service) is not under src/.  Section 4.5: every active
    Registration on each competition of the window. *)
Definition due_reminders (lookahead delta : Z) (t : Instant) (st : Store)
  : list Registration :=
  flat_map
    (fun c => filter (fun r => on_competition (comp_id c) r && active r)
                     (registrations st))
    (filter (in_window lookahead delta t) (competitions st)).

(** Modelled from the spec: the enqueueing loop of the Scheduler, whose code
    (the cron service) is not under src/; each task goes through
    [addReminderEmail], and a throw ends the run. *)
Fixpoint enqueue_reminders (q : Queue) (rs : list Registration)
  : result unit * Queue :=
  match rs with
  | [] => (Ok tt, q)
  | r :: rs' =>
      match addReminderEmail q (reg_id r) (userId r) (competitionId r) with
      | (Ok _, q') => enqueue_reminders q' rs'
      | (Throw e, q') => (Throw e, q')
      end
  end.

(** Modelled from the spec: one invocation of the Scheduler (the cron
    service is not under src/), section 4.5. *)
Definition sendReminders (lookahead delta : Z) (env : Env) (st : Store)
    (q : Queue) : result unit * Queue :=
  enqueue_reminders q (due_reminders lookahead delta (now env) st).

(** ** Concurrent calls of [register]

    [register] gives control back at each [await].  A call in flight is the
    arguments of the call and the point it has reached; a step runs the call
    up to its next [await] on the shared store and queue.  The source asks
    [$transaction] for no isolation level and reads the competition with a
    plain [findUnique], so nothing orders the statements of two
    transactions: any interleaving of the steps of the calls is a run. *)

Inductive Pc : Type :=
| AtLookup
| AtReadCompetition
| AtFindExisting
| AtCreate
| AtEnqueue (registration : RegistrationPayload)
| Returned (r : result RegistrationPayload).

Record Call : Type := {
  call_env : Env;
  call_competitionId : Id;
  call_userId : Id;
  call_key : option string;
  pc : Pc
}.

Definition call (env : Env) (c u : Id) (key : option string) : Call :=
  {| call_env := env; call_competitionId := c; call_userId := u;
     call_key := key; pc := AtLookup |}.

Definition at_pc (k : Call) (p : Pc) : Call :=
  {| call_env := call_env k; call_competitionId := call_competitionId k;
     call_userId := call_userId k; call_key := call_key k; pc := p |}.

Definition step (st : Store) (q : Queue) (k : Call) : Store * Queue * Call :=
  let c := call_competitionId k in
  let u := call_userId k in
  match pc k with
  | AtLookup =>
      match idempotency_lookup st (call_key k) with
      | Some existing => (st, q, at_pc k (Returned (Ok (bare existing))))
      | None => (st, q, at_pc k AtReadCompetition)
      end
  | AtReadCompetition =>
      match check_competition (call_env k) (findUnique_competition st c)
              (count_registrations st c) with
      | Throw e => (st, q, at_pc k (Returned (Throw e)))
      | Ok _ => (st, q, at_pc k AtFindExisting)
      end
  | AtFindExisting =>
      match findUnique_userId_competitionId st u c with
      | Some _ => (st, q, at_pc k (Returned (Throw AlreadyRegistered)))
      | None => (st, q, at_pc k AtCreate)
      end
  | AtCreate =>
      match create_registration (call_env k) st u c (call_key k) with
      | (Throw e, _) => (st, q, at_pc k (Returned (Throw e)))
      | (Ok registration, st') => (st', q, at_pc k (AtEnqueue registration))
      end
  | AtEnqueue registration =>
      let '(_, q') := addConfirmationEmail q (reg_id (row registration)) u c in
      (st, q', at_pc k (Returned (Ok registration)))
  | Returned _ => (st, q, k)
  end.

(** Replace the [i]-th call. *)
Fixpoint set_nth (i : nat) (k : Call) (ks : list Call) : list Call :=
  match i, ks with
  | _, [] => []
  | O, _ :: ks' => k :: ks'
  | S i', k0 :: ks' => k0 :: set_nth i' k ks'
  end.

(** A schedule names, step after step, the call that runs next. *)
Fixpoint run (schedule : list nat) (st : Store) (q : Queue) (ks : list Call)
  : Store * Queue * list Call :=
  match schedule with
  | [] => (st, q, ks)
  | i :: schedule' =>
      match nth_error ks i with
      | None => run schedule' st q ks
      | Some k =>
          let '(st', q', k') := step st q k in
          run schedule' st' q' (set_nth i k' ks)
      end
  end.

(** The calls one after the other, each to its end. *)
Fixpoint serial (n i : nat) : list nat :=
  match n with
  | O => []
  | S n' => (repeat i 5 ++ serial n' (S i))%list
  end.

Definition results (ks : list Call) : list (option (result RegistrationPayload)) :=
  map (fun k => match pc k with Returned r => Some r | _ => None end) ks.

(** ** The constraints of the [Registration] table *)

Definition count_key (k : string) (rs : list Registration) : nat :=
  List.length (filter (has_key k) rs).

Definition count_pair (u c : Id) (rs : list Registration) : nat :=
  List.length (filter (same_pair u c) rs).

Definition key_free (key : option string) (rs : list Registration) : bool :=
  match key with
  | Some k => negb (existsb (has_key k) rs)
  | None => true
  end.

(** [@@unique([userId, competitionId])] and [idempotencyKey String? @unique],
    checked row by row, oldest first: no row collides with an older one. *)
Fixpoint constraints_hold_rev (rs : list Registration) : bool :=
  match rs with
  | [] => true
  | r :: older =>
      negb (existsb (same_pair (userId r) (competitionId r)) older)
      && key_free (idempotencyKey r) older
      && constraints_hold_rev older
  end.

Definition constraints_hold (st : Store) : bool :=
  constraints_hold_rev (rev (registrations st)).

(** ** Sample data *)

Definition alice : User :=
  {| user_id := "u1"; user_name := "Alice"; user_email := "alice@organizer.com" |}.
Definition charlie : User :=
  {| user_id := "u2"; user_name := "Charlie"; user_email := "charlie@participant.com" |}.
Definition dana : User :=
  {| user_id := "u3"; user_name := "Dana"; user_email := "dana@participant.com" |}.

(** A competition open until instant 1000, starting a day after instant 0. *)
Definition hackathon (cap : Z) : Competition :=
  {| comp_id := "c1"; title := "Hackathon 2025"; capacity := cap;
     regDeadline := 1000; startDate := Some 86400000; comp_deletedAt := None |}.

Definition store0 (cap : Z) : Store :=
  {| users := [alice; charlie; dana]; competitions := [hackathon cap];
     registrations := []; mailBox := []; failedJob := [] |}.

Definition queue0 : Queue :=
  {| redis_up := true; next_job_id := 1; waiting := []; delayed := [];
     failed := []; completed := [] |}.

Definition queue_down : Queue :=
  {| redis_up := false; next_job_id := 1; waiting := []; delayed := [];
     failed := []; completed := [] |}.

Definition env_at (t : Instant) (i : Id) : Env := {| now := t; uuid := i |}.

Definition registration_of (i u : Id) (key : option string) (t : Instant)
  : Registration :=
  {| reg_id := i; userId := u; competitionId := "c1"; idempotencyKey := key;
     registeredAt := t; reg_deletedAt := None |}.

(** The sample store once the given registrations are in. *)
Definition store_with (cap : Z) (rs : list Registration) : Store :=
  with_registrations (store0 cap) rs.

(** The job [addConfirmationEmail] makes for registration [i] of user [u]. *)
Definition confirmation_job (n : nat) (i u : Id) (made : nat) : Job :=
  {| job_id := n; name := "sendConfirmation";
     data := {| job_registrationId := i; job_userId := u;
                job_competitionId := "c1"; type := confirmation |};
     opts := {| attempts := 3; backoff_type := exponential;
                backoff_delay := 2000; removeOnComplete := true;
                removeOnFail := false |};
     attemptsMade := made |}.

(** The jobs [addReminderEmail] makes for the given registrations, numbered
    from [n]. *)
Fixpoint reminder_jobs (n : nat) (rs : list Registration) : list Job :=
  match rs with
  | [] => []
  | r :: rs' =>
      {| job_id := n; name := "sendReminder";
         data := {| job_registrationId := reg_id r; job_userId := userId r;
                    job_competitionId := competitionId r; type := reminder |};
         opts := {| attempts := 3; backoff_type := exponential;
                    backoff_delay := 2000; removeOnComplete := false;
                    removeOnFail := false |};
         attemptsMade := 0 |} :: reminder_jobs (S n) rs'
  end.

(** The queue after [js] have been added to it. *)
Definition enqueued (q : Queue) (js : list Job) : Queue :=
  {| redis_up := redis_up q; next_job_id := (next_job_id q + List.length js)%nat;
     waiting := (waiting q ++ js)%list; delayed := delayed q;
     failed := failed q; completed := completed q |}.

(** Whether a call in flight has returned a registration. *)
Definition returned_ok (k : Call) : bool :=
  match pc k with
  | Returned (Ok _) => true
  | _ => false
  end.

(** Two registrations of the sample competition, and a third one that was
    soft-deleted. *)
Definition store_reminders : Store :=
  with_registrations (store0 5)
    [registration_of "r1" "u1" None 10;
     {| reg_id := "r0"; userId := "u3"; competitionId := "c1";
        idempotencyKey := None; registeredAt := 5; reg_deletedAt := Some 7 |};
     registration_of "r2" "u2" None 20].

Definition hour : Z := 3600000.

(** Calls of [register] without a key, one after the other, each on the
    store and the queue the one before has left. *)
Fixpoint register_each (calls : list (Env * Id)) (c : Id) (st : Store)
    (q : Queue) : list (result RegistrationPayload) * Store * Queue :=
  match calls with
  | [] => ([], st, q)
  | (env, u) :: rest =>
      let '(res, st', q') := register env st q c u None in
      let '(ress, st'', q'') := register_each rest c st' q' in
      (res :: ress, st'', q'')
  end.

(** The calls in flight that [register_each] stands for, before their first
    step and after their last. *)
Definition calls_of (c : Id) (calls : list (Env * Id)) : list Call :=
  map (fun eu => call (fst eu) c (snd eu) None) calls.

Definition returned_calls (c : Id) (calls : list (Env * Id))
    (ress : list (result RegistrationPayload)) : list Call :=
  map (fun x => at_pc (call (fst (fst x)) c (snd (fst x)) None)
                      (Returned (snd x)))
      (combine calls ress).

(** ** The other methods of [CompetitionsService]

    They read columns the admission path does not: a row of the database is
    the record of the admission path with those columns beside it, and
    [store_of] forgets them again. *)

Inductive Role : Type := ORGANIZER | PARTICIPANT.

Record UserRow : Type := {
  account : User;
  role : Role
}.

Record CompetitionRow : Type := {
  competition : Competition;
  description : string;
  tags : list string;
  createdById : Id;
  createdAt : Instant
}.

Record Db : Type := {
  user_rows : list UserRow;
  competition_rows : list CompetitionRow;
  registration_rows : list Registration;
  mailBox_rows : list MailBox;
  failedJob_rows : list FailedJob
}.

Definition store_of (db : Db) : Store :=
  {| users := map account (user_rows db);
     competitions := map competition (competition_rows db);
     registrations := registration_rows db;
     mailBox := mailBox_rows db;
     failedJob := failedJob_rows db |}.

Definition with_competition_rows (db : Db) (rows : list CompetitionRow) : Db :=
  {| user_rows := user_rows db; competition_rows := rows;
     registration_rows := registration_rows db;
     mailBox_rows := mailBox_rows db; failedJob_rows := failedJob_rows db |}.

Definition with_registration_rows (db : Db) (rows : list Registration) : Db :=
  {| user_rows := user_rows db; competition_rows := competition_rows db;
     registration_rows := rows;
     mailBox_rows := mailBox_rows db; failedJob_rows := failedJob_rows db |}.

(** [register] on the database: it reads and writes what [store_of] shows,
    and writes registrations only. *)
Definition register_in (env : Env) (db : Db) (q : Queue) (c u : Id)
    (key : option string) : result RegistrationPayload * Db * Queue :=
  let '(res, st', q') := register env (store_of db) q c u key in
  (res, with_registration_rows db (registrations st'), q').

(** The exceptions of these methods: those of the admission path, and
    [ForbiddenException]. *)
Inductive ServiceException : Type :=
| ForbiddenException (message : string)
| Thrown (e : Exception).

Inductive outcome (A : Type) : Type :=
| Done (a : A)
| Raise (e : ServiceException).
Arguments Done {A} a.
Arguments Raise {A} e.

(** Prisma's code for a record that a [connect] needs and does not find. *)
Definition P2025 : Exception := PrismaClientKnownRequestError "P2025".

(** Prisma's code for a value that the type of its column cannot hold. *)
Definition P2020 : Exception := PrismaClientKnownRequestError "P2020".

(** Prisma's refusal, before any query runs, of [data] that lacks a column
    the model requires (a [PrismaClientValidationError]). *)
Definition PrismaClientValidationError : Exception :=
  JsError "Argument `description` is missing.".

(** [capacity Int]: the column holds a signed integer of 32 bits. *)
Definition fits_Int (n : Z) : bool :=
  (-2147483648 <=? n) && (n <=? 2147483647).

(** [class CreateCompetitionDto]; a date string is the instant it denotes.
    [description] is [@IsOptional()]: a request may leave it out. *)
Record CreateCompetitionDto : Type := {
  dto_title : string;
  dto_description : option string;
  dto_tags : option (list string);
  dto_capacity : Z;
  dto_regDeadline : Instant;
  dto_startDate : option Instant
}.

(** Modelled from its use in [update]: the declaration of
    [UpdateCompetitionDto] is not under src/; [update] reads these five
    fields, each of which may be absent. *)
Record UpdateCompetitionDto : Type := {
  upd_title : option string;
  upd_description : option string;
  upd_tags : option (list string);
  upd_capacity : option Z;
  upd_regDeadline : option Instant
}.

(** A registration with [include: { user: { select: id, name, email } }]. *)
Record Participant : Type := {
  participant_row : Registration;
  participant_user : option User
}.

(** A registration with its competition and the organizer of it. *)
Record MyRegistration : Type := {
  my_row : Registration;
  my_competition : option CompetitionRow;
  my_organizer : option User
}.

(** A competition with what the [include] of the query asked for: the
    organizer ([select: id, name, email, role]), the registrations with
    their users, [_count.registrations]. *)
Record CompetitionView : Type := {
  view_row : CompetitionRow;
  view_organizer : option UserRow;
  view_registrations : option (list Participant);
  view_count : option Z
}.

Definition row_id (r : CompetitionRow) : Id := comp_id (competition r).

Definition find_competition_row (db : Db) (i : Id) : option CompetitionRow :=
  find (fun r => String.eqb (row_id r) i) (competition_rows db).

Definition find_user_row (db : Db) (i : Id) : option UserRow :=
  find (fun r => String.eqb (user_id (account r)) i) (user_rows db).

Definition not_deleted (r : CompetitionRow) : bool :=
  match comp_deletedAt (competition r) with
  | None => true
  | Some _ => false
  end.

(** [orderBy: { ...: 'desc' }]: rows of equal key come in an order the
    database does not promise. *)
Fixpoint insert_desc {A : Type} (key : A -> Z) (x : A) (l : list A) : list A :=
  match l with
  | [] => [x]
  | y :: l' => if key y <=? key x then x :: l else y :: insert_desc key x l'
  end.

Definition sort_desc {A : Type} (key : A -> Z) (l : list A) : list A :=
  fold_right (insert_desc key) [] l.

Definition with_user (db : Db) (r : Registration) : Participant :=
  {| participant_row := r;
     participant_user := findUnique_user (store_of db) (userId r) |}.

(** [CompetitionsService.create]: [startDate] is not among the data.  The
    one call of [prisma.competition.create] fails, and writes nothing, in
    three ways: the [data] has no [description], which the model
    [description String] requires; the [connect] finds no user of the id;
    the row is refused because [capacity] is outside the [Int] column. *)
Definition create (env : Env) (db : Db) (dto : CreateCompetitionDto)
    (organizerId : Id) : result CompetitionView * Db :=
  match dto_description dto with
  | None => (Throw PrismaClientValidationError, db)
  | Some text =>
      match find_user_row db organizerId with
      | None => (Throw P2025, db)
      | Some organizer =>
          if fits_Int (dto_capacity dto) then
            let row :=
              {| competition :=
                   {| comp_id := uuid env; title := dto_title dto;
                      capacity := dto_capacity dto;
                      regDeadline := dto_regDeadline dto;
                      startDate := None; comp_deletedAt := None |};
                 description := text;
                 tags := match dto_tags dto with Some t => t | None => [] end;
                 createdById := organizerId;
                 createdAt := now env |} in
            (Ok {| view_row := row; view_organizer := Some organizer;
                   view_registrations := None; view_count := None |},
             with_competition_rows db (competition_rows db ++ [row])%list)
          else (Throw P2020, db)
      end
  end.

(** [CompetitionsService.findAll] *)
Definition findAll (db : Db) : list CompetitionView :=
  map (fun r =>
         {| view_row := r;
            view_organizer := find_user_row db (createdById r);
            view_registrations := None;
            view_count := Some (count_registrations (store_of db) (row_id r)) |})
      (sort_desc createdAt (filter not_deleted (competition_rows db))).

(** [CompetitionsService.findOne] *)
Definition findOne (db : Db) (i : Id) : result CompetitionView :=
  match find_competition_row db i with
  | None => Throw NotFound
  | Some r =>
      if not_deleted r then
        Ok {| view_row := r;
              view_organizer := find_user_row db (createdById r);
              view_registrations :=
                Some (map (with_user db)
                        (filter (on_competition i) (registration_rows db)));
              view_count := Some (count_registrations (store_of db) i) |}
      else Throw NotFound
  end.

(** JavaScript truthiness of a number: 0 is falsy. *)
Definition truthy_number (n : Z) : bool := negb (n =? 0).

(** The [data] of [update]: [...(dto.f && { f: dto.f })] sets a column when
    the field is truthy; an empty array is. *)
Definition patch (dto : UpdateCompetitionDto) (r : CompetitionRow)
  : CompetitionRow :=
  {| competition :=
       {| comp_id := comp_id (competition r);
          title := match upd_title dto with
                   | Some t => if truthy t then t else title (competition r)
                   | None => title (competition r)
                   end;
          capacity := match upd_capacity dto with
                      | Some n => if truthy_number n then n
                                  else capacity (competition r)
                      | None => capacity (competition r)
                      end;
          regDeadline := match upd_regDeadline dto with
                         | Some d => d
                         | None => regDeadline (competition r)
                         end;
          startDate := startDate (competition r);
          comp_deletedAt := comp_deletedAt (competition r) |};
     description := match upd_description dto with
                    | Some d => if truthy d then d else description r
                    | None => description r
                    end;
     tags := match upd_tags dto with
             | Some t => t
             | None => tags r
             end;
     createdById := createdById r;
     createdAt := createdAt r |}.

(** [prisma.competition.update({ where: { id }, data })] *)
Fixpoint update_row (i : Id) (f : CompetitionRow -> CompetitionRow)
    (rows : list CompetitionRow) : list CompetitionRow :=
  match rows with
  | [] => []
  | r :: rows' =>
      if String.eqb (row_id r) i then f r :: rows'
      else r :: update_row i f rows'
  end.

(** Whether the [data] of [update] sets [capacity] to a number that the
    [Int] column cannot hold: the field is present, truthy, and outside 32
    bits. *)
Definition sets_capacity_out_of_range (dto : UpdateCompetitionDto) : bool :=
  match upd_capacity dto with
  | Some n => truthy_number n && negb (fits_Int n)
  | None => false
  end.

(** [CompetitionsService.update]: after the two checks, the call of
    [prisma.competition.update] fails, and writes nothing, when the
    capacity it is to store is outside the [Int] column. *)
Definition update (db : Db) (i : Id) (dto : UpdateCompetitionDto) (u : Id)
  : outcome CompetitionView * Db :=
  match find_competition_row db i with
  | None => (Raise (Thrown NotFound), db)
  | Some r =>
      if negb (String.eqb (createdById r) u) then
        (Raise (ForbiddenException "You can only update your own competitions"),
         db)
      else if sets_capacity_out_of_range dto then
        (Raise (Thrown P2020), db)
      else
        (Done {| view_row := patch dto r;
                 view_organizer := find_user_row db (createdById r);
                 view_registrations := None; view_count := None |},
         with_competition_rows db (update_row i (patch dto) (competition_rows db)))
  end.

(** [CompetitionsService.getMyRegistrations] *)
Definition getMyRegistrations (db : Db) (u : Id) : list MyRegistration :=
  map (fun r =>
         {| my_row := r;
            my_competition := find_competition_row db (competitionId r);
            my_organizer :=
              match find_competition_row db (competitionId r) with
              | Some c => findUnique_user (store_of db) (createdById c)
              | None => None
              end |})
      (sort_desc registeredAt
         (filter (fun r => String.eqb (userId r) u && active r)
                 (registration_rows db))).

(** [CompetitionsService.getParticipants] *)
Definition getParticipants (db : Db) (c u : Id) : outcome (list Participant) :=
  match find_competition_row db c with
  | None => Raise (Thrown NotFound)
  | Some r =>
      if negb (String.eqb (createdById r) u) then
        Raise (ForbiddenException "Only the organizer can view participants")
      else
        Done (map (with_user db)
                (sort_desc registeredAt
                   (filter (fun r => on_competition c r && active r)
                           (registration_rows db))))
  end.

(** ** The page of a competition ([competitions/[id]/page.tsx]) *)

(** [(competition._count?.registrations || 0) >= competition.capacity] *)
Definition isFull (view : CompetitionView) : bool :=
  match view_count view with
  | Some n => n
  | None => 0
  end >=? capacity (competition (view_row view)).

(** [new Date(competition.regDeadline) < new Date()] *)
Definition isDeadlinePassed (view : CompetitionView) (t : Instant) : bool :=
  regDeadline (competition (view_row view)) <? t.

(** [disabled={registering || isFull || isDeadlinePassed}] *)
Definition button_disabled (registering : bool) (view : CompetitionView)
    (t : Instant) : bool :=
  registering || isFull view || isDeadlinePassed view t.

(** The text of the button. *)
Definition button_label (registering : bool) (view : CompetitionView)
    (t : Instant) : string :=
  if registering then "Registering..."
  else if isFull view then "Competition Full"
  else if isDeadlinePassed view t then "Registration Closed"
  else "Register Now".

(** ** More sample data *)

Definition alice_row : UserRow := {| account := alice; role := ORGANIZER |}.
Definition charlie_row : UserRow := {| account := charlie; role := PARTICIPANT |}.

Definition hackathon_row (cap : Z) : CompetitionRow :=
  {| competition := hackathon cap; description := "Build the next big thing";
     tags := ["coding"; "hackathon"]; createdById := "u1"; createdAt := 1 |}.

Definition db0 (cap : Z) (rs : list Registration) : Db :=
  {| user_rows := [alice_row; charlie_row];
     competition_rows := [hackathon_row cap];
     registration_rows := rs; mailBox_rows := []; failedJob_rows := [] |}.


(** ** Proof steps *)

(** Run the next step of a schedule on calls written out. *)
Ltac step_call :=
  cbn [run nth_error set_nth]; unfold step at 1;
  cbn [pc call at_pc call_env call_competitionId call_userId call_key
       idempotency_lookup].

(** The same for a call that stands among others; [run_middle] is the
    equation of [run] there. *)
Ltac step_middle_with lemma :=
  rewrite lemma; unfold step at 1;
  cbn [pc call at_pc call_env call_competitionId call_userId call_key].

(** A call that threw left the store and the queue as they were. *)
Ltac unchanged :=
  let H := fresh in
  intros ? ? ? [= <- <- <-] H; contradiction.

(** The guard [if (idempotencyKey)] lets a non-empty key through. *)
Ltac truthy_key k H :=
  assert (H : truthy k = true)
    by (unfold truthy; apply negb_true_iff, String.eqb_neq; assumption).

(** ** Properties of the admission path *)

Lemma create_registration_throw (env : Env) (st st' : Store) (u c : Id)
    (key : option string) (e : Exception) :
  create_registration env st u c key = (Throw e, st') -> st' = st.
Proof.
  unfold create_registration.
  destruct (_ || _).
  - intros H; inversion H; reflexivity.
  - destruct (findUnique_competition st c), (findUnique_user st u);
      intros H; inversion H; reflexivity.
Qed.

Lemma create_registration_ok (env : Env) (st st' : Store) (u c : Id)
    (key : option string) (p : RegistrationPayload) :
  create_registration env st u c key = (Ok p, st') ->
  row p = new_registration env u c key
  /\ st' = with_registrations st (registrations st ++ [row p])
  /\ existsb (same_pair u c) (registrations st) = false
  /\ key_free key (registrations st) = true
  /\ include_competition p = findUnique_competition st c
  /\ include_user p = findUnique_user st u.
Proof.
  unfold create_registration, key_free.
  destruct (existsb (same_pair u c) (registrations st)) eqn:Hp; simpl.
  - intros H; inversion H.
  - destruct (match key with Some k => existsb (has_key k) (registrations st)
                           | None => false end) eqn:Hk.
    + intros H; inversion H.
    + destruct (findUnique_competition st c), (findUnique_user st u);
        intros H; inversion H; subst; simpl.
      repeat split; try reflexivity.
      destruct key; [rewrite Hk|]; reflexivity.
Qed.

Lemma admission_throw (env : Env) (st st' : Store) (u c : Id)
    (key : option string) (e : Exception) :
  admission env u c key st = (Throw e, st') -> st' = st.
Proof.
  unfold admission.
  destruct (check_competition _ _ _).
  - destruct (findUnique_userId_competitionId st u c).
    + intros H; inversion H; reflexivity.
    + apply create_registration_throw.
  - intros H; inversion H; reflexivity.
Qed.

(** The callback writes last, so rolling back never undoes anything. *)
Lemma transaction_admission (env : Env) (st : Store) (u c : Id)
    (key : option string) :
  transaction (admission env u c key) st = admission env u c key st.
Proof.
  unfold transaction.
  destruct (admission env u c key st) as [[p|e] st'] eqn:H; [reflexivity|].
  apply admission_throw in H. subst. reflexivity.
Qed.

Lemma register_no_hit (env : Env) (st : Store) (q : Queue) (c u : Id)
    (key : option string) :
  idempotency_lookup st key = None ->
  register env st q c u key =
    match admission env u c key st with
    | (Throw e, _) => (Throw e, st, q)
    | (Ok p, st') =>
        (Ok p, st', snd (addConfirmationEmail q (reg_id (row p)) u c))
    end.
Proof.
  intros H. unfold register. rewrite H, transaction_admission.
  destruct (admission env u c key st) as [[p|e] st'] eqn:Ha.
  - destruct (addConfirmationEmail _ _ _ _); reflexivity.
  - apply admission_throw in Ha. subst. reflexivity.
Qed.

Lemma find_none_existsb {A : Type} (f : A -> bool) (l : list A) :
  find f l = None <-> existsb f l = false.
Proof.
  induction l as [|a l IH]; simpl; [tauto|].
  destruct (f a); simpl; [split; discriminate | exact IH].
Qed.

(** C2. A call of [register] that finds no registration under its
    idempotency key fails with NotFound when the competition is absent or
    soft-deleted, else with DeadlineExceeded when the current time is
    strictly after the deadline (whatever the remaining capacity), else with
    CapacityExceeded when the count has reached the capacity, else with
    AlreadyRegistered when the pair is already registered; each failure
    leaves the store and the queue as they were.  A row is inserted only
    when all four checks have passed, and it carries the key; when they
    have passed, the user exists and the key is unused, the row is
    inserted. *)
Theorem register_checks_in_order (env : Env) (st : Store) (q : Queue)
    (c u : Id) (key : option string) :
  idempotency_lookup st key = None ->
  let n := count_registrations st c in
  (findUnique_competition st c = None ->
     register env st q c u key = (Throw NotFound, st, q))
  /\ (forall comp, findUnique_competition st c = Some comp ->
        (comp_deletedAt comp <> None ->
           register env st q c u key = (Throw NotFound, st, q))
        /\ (comp_deletedAt comp = None -> now env > regDeadline comp ->
              register env st q c u key = (Throw DeadlineExceeded, st, q))
        /\ (comp_deletedAt comp = None -> now env <= regDeadline comp ->
              n >= capacity comp ->
              register env st q c u key = (Throw CapacityExceeded, st, q))
        /\ (comp_deletedAt comp = None -> now env <= regDeadline comp ->
              n < capacity comp ->
              findUnique_userId_competitionId st u c <> None ->
              register env st q c u key = (Throw AlreadyRegistered, st, q))
        /\ (comp_deletedAt comp = None -> now env <= regDeadline comp ->
              n < capacity comp ->
              findUnique_userId_competitionId st u c = None ->
              findUnique_user st u <> None ->
              key_free key (registrations st) = true ->
              exists p,
                register env st q c u key =
                  (Ok p, with_registrations st (registrations st ++ [row p]),
                   snd (addConfirmationEmail q (reg_id (row p)) u c))
                /\ userId (row p) = u /\ competitionId (row p) = c
                /\ idempotencyKey (row p) = key))
  /\ (forall res st' q',
        register env st q c u key = (res, st', q') ->
        registrations st' <> registrations st ->
        exists comp p,
          findUnique_competition st c = Some comp
          /\ comp_deletedAt comp = None
          /\ now env <= regDeadline comp
          /\ n < capacity comp
          /\ findUnique_userId_competitionId st u c = None
          /\ res = Ok p
          /\ registrations st' = (registrations st ++ [row p])%list
          /\ userId (row p) = u /\ competitionId (row p) = c
          /\ idempotencyKey (row p) = key).
Proof.
  intros Hmiss n. rewrite (register_no_hit env st q c u key Hmiss).
  unfold admission, check_competition. fold n.
  destruct (findUnique_competition st c) as [comp|] eqn:Hc.
  2:{ split; [reflexivity|]. split; [intros ? [=]|].
      unchanged. }
  split; [intros [=]|].
  destruct (comp_deletedAt comp) as [d|] eqn:Hd.
  { split.
    - intros ? [= <-]. rewrite Hd.
      repeat split; try reflexivity; intros [=].
    - unchanged. }
  destruct (Z.gtb_spec (now env) (regDeadline comp)) as [Hlate|Hopen].
  { split.
    - intros ? [= <-]. rewrite Hd.
      repeat split; try reflexivity; try (intros; lia). congruence.
    - unchanged. }
  destruct (Z.geb_spec n (capacity comp)) as [Hfull|Hroom].
  { split.
    - intros ? [= <-]. rewrite Hd.
      repeat split; try reflexivity; try (intros; lia). congruence.
    - unchanged. }
  destruct (findUnique_userId_competitionId st u c) as [r|] eqn:Hr.
  { split.
    - intros ? [= <-]. rewrite Hd.
      repeat split; try reflexivity; try (intros; lia); congruence.
    - unchanged. }
  destruct (create_registration env st u c key) as [[p|e] st1] eqn:Hcr.
  - destruct (create_registration_ok _ _ _ _ _ _ _ Hcr)
      as (Hrow & Hst & _ & _ & _ & _).
    split.
    + intros ? [= <-]. rewrite Hd.
      repeat split; try (intros; lia); try congruence.
      intros _ _ _ _ _ _. exists p. subst st1. rewrite Hrow. simpl.
      repeat split; reflexivity.
    + intros res st' q' [= <- <- <-] _. exists comp, p.
      subst st1. rewrite Hrow. simpl. repeat split; auto; lia.
  - split.
    + intros ? [= <-]. rewrite Hd.
      repeat split; try (intros; lia); try congruence.
      intros _ _ _ _ Hu Hk. exfalso.
      unfold create_registration in Hcr.
      apply find_none_existsb in Hr.
      unfold findUnique_userId_competitionId in Hr. rewrite Hr in Hcr.
      unfold key_free in Hk. simpl in Hcr.
      assert (Hk' : match key with
                    | Some k => existsb (has_key k) (registrations st)
                    | None => false end = false).
      { destruct key; [apply negb_true_iff in Hk; exact Hk | reflexivity]. }
      rewrite Hk', Hc in Hcr.
      destruct (findUnique_user st u); [discriminate | congruence].
    + unchanged.
Qed.

Lemma register_checks_in_order_witness :
  idempotency_lookup (store_with 1 [registration_of "r1" "u1" None 10]) None = None
  /\ register (env_at 20 "r2") (store_with 1 [registration_of "r1" "u1" None 10])
       queue0 "c1" "u2" None
     = (Throw CapacityExceeded,
        store_with 1 [registration_of "r1" "u1" None 10], queue0).
Proof.
  split; [reflexivity|].
  destruct (register_checks_in_order (env_at 20 "r2")
              (store_with 1 [registration_of "r1" "u1" None 10])
              queue0 "c1" "u2" None eq_refl) as (_ & Hfound & _).
  destruct (Hfound (hackathon 1) eq_refl) as (_ & _ & Hfull & _).
  apply Hfull.
  - reflexivity.
  - simpl; lia.
  - vm_compute; discriminate.
Defined.

(** *** Unique constraints *)

Lemma find_app_none {A : Type} (f : A -> bool) (l l' : list A) :
  find f l = None -> find f (l ++ l') = find f l'.
Proof.
  induction l as [|a l IH]; simpl; [reflexivity|].
  destruct (f a); [discriminate | exact IH].
Qed.

Lemma existsb_false_filter {A : Type} (f : A -> bool) (l : list A) :
  existsb f l = false -> filter f l = [].
Proof.
  induction l as [|a l IH]; simpl; [reflexivity|].
  destruct (f a); simpl; [discriminate | exact IH].
Qed.

Lemma existsb_rev_eq {A : Type} (f : A -> bool) (l : list A) :
  existsb f (rev l) = existsb f l.
Proof.
  induction l as [|a l IH]; simpl; [reflexivity|].
  rewrite existsb_app, IH. simpl. rewrite orb_false_r. apply orb_comm.
Qed.

Lemma has_key_iff (k : string) (r : Registration) :
  has_key k r = true <-> idempotencyKey r = Some k.
Proof.
  unfold has_key. destruct (idempotencyKey r) as [k'|].
  - rewrite String.eqb_eq. split; congruence.
  - split; discriminate.
Qed.

Lemma same_pair_iff (u c : Id) (r : Registration) :
  same_pair u c r = true <-> userId r = u /\ competitionId r = c.
Proof.
  unfold same_pair. rewrite andb_true_iff, !String.eqb_eq. tauto.
Qed.

Lemma constraints_rev_key (rs : list Registration) :
  constraints_hold_rev rs = true ->
  forall k, (List.length (filter (has_key k) rs) <= 1)%nat.
Proof.
  induction rs as [|r older IH]; simpl; intros H k; [lia|].
  apply andb_true_iff in H as [H Hrest].
  apply andb_true_iff in H as [_ Hfree].
  destruct (has_key k r) eqn:Hk; [|apply IH; exact Hrest].
  apply has_key_iff in Hk. rewrite Hk in Hfree. simpl in Hfree.
  apply negb_true_iff in Hfree.
  rewrite (existsb_false_filter _ _ Hfree). simpl. lia.
Qed.

Lemma constraints_rev_pair (rs : list Registration) :
  constraints_hold_rev rs = true ->
  forall u c, (List.length (filter (same_pair u c) rs) <= 1)%nat.
Proof.
  induction rs as [|r older IH]; simpl; intros H u c; [lia|].
  apply andb_true_iff in H as [H Hrest].
  apply andb_true_iff in H as [Hfree _].
  destruct (same_pair u c r) eqn:Hp; [|apply IH; exact Hrest].
  apply same_pair_iff in Hp as [<- <-].
  apply negb_true_iff in Hfree.
  rewrite (existsb_false_filter _ _ Hfree). simpl. lia.
Qed.

Lemma count_key_le_1 (st : Store) (k : string) :
  constraints_hold st = true -> (count_key k (registrations st) <= 1)%nat.
Proof.
  intros H. unfold count_key.
  rewrite <- (rev_involutive (registrations st)), filter_rev, length_rev.
  apply constraints_rev_key. exact H.
Qed.

Lemma count_pair_le_1 (st : Store) (u c : Id) :
  constraints_hold st = true -> (count_pair u c (registrations st) <= 1)%nat.
Proof.
  intros H. unfold count_pair.
  rewrite <- (rev_involutive (registrations st)), filter_rev, length_rev.
  apply constraints_rev_pair. exact H.
Qed.

Lemma at_most_one {A : Type} (f : A -> bool) (l : list A) (a b : A) :
  (List.length (filter f l) <= 1)%nat ->
  In a l -> f a = true -> In b l -> f b = true -> a = b.
Proof.
  intros Hlen Ha Hfa Hb Hfb.
  assert (Ia : In a (filter f l)) by (apply filter_In; auto).
  assert (Ib : In b (filter f l)) by (apply filter_In; auto).
  destruct (filter f l) as [|x [|y l']]; simpl in *; try lia; try tauto.
  destruct Ia as [<-|[]], Ib as [<-|[]]. reflexivity.
Qed.

Lemma constraints_hold_insert (st : Store) (r : Registration) :
  constraints_hold st = true ->
  existsb (same_pair (userId r) (competitionId r)) (registrations st) = false ->
  key_free (idempotencyKey r) (registrations st) = true ->
  constraints_hold (with_registrations st (registrations st ++ [r])) = true.
Proof.
  unfold constraints_hold. simpl. intros H Hp Hk.
  rewrite rev_app_distr. simpl.
  rewrite existsb_rev_eq, Hp, H. simpl.
  rewrite andb_true_r.
  unfold key_free in *. destruct (idempotencyKey r); [|reflexivity].
  rewrite existsb_rev_eq. exact Hk.
Qed.

Lemma admission_ok (env : Env) (st st' : Store) (u c : Id)
    (key : option string) (p : RegistrationPayload) :
  admission env u c key st = (Ok p, st') ->
  create_registration env st u c key = (Ok p, st').
Proof.
  unfold admission.
  destruct (check_competition _ _ _); [|discriminate].
  destruct (findUnique_userId_competitionId st u c); [discriminate|auto].
Qed.

(** [register] either leaves the registrations alone or appends one row that
    the constraints accept. *)
Lemma register_store (env : Env) (st : Store) (q : Queue) (c u : Id)
    (key : option string) (res : result RegistrationPayload) (st' : Store)
    (q' : Queue) :
  register env st q c u key = (res, st', q') ->
  (st' = st /\ q' = q)
  \/ (exists p,
        res = Ok p
        /\ st' = with_registrations st (registrations st ++ [row p])
        /\ row p = new_registration env u c key
        /\ existsb (same_pair u c) (registrations st) = false
        /\ key_free key (registrations st) = true).
Proof.
  unfold register.
  destruct (idempotency_lookup st key).
  { intros [= <- <- <-]. left. auto. }
  rewrite transaction_admission.
  destruct (admission env u c key st) as [[p|e] st1] eqn:Ha.
  - apply admission_ok, create_registration_ok in Ha.
    destruct Ha as (Hrow & Hst & Hp & Hk & _).
    destruct (addConfirmationEmail _ _ _ _) as [j q1].
    intros [= <- <- <-]. right. exists p. auto.
  - apply admission_throw in Ha. subst.
    intros [= <- <- <-]. left. auto.
Qed.

Lemma register_keeps_constraints (env : Env) (st : Store) (q : Queue)
    (c u : Id) (key : option string) (res : result RegistrationPayload)
    (st' : Store) (q' : Queue) :
  constraints_hold st = true ->
  register env st q c u key = (res, st', q') ->
  constraints_hold st' = true.
Proof.
  intros H Hr. apply register_store in Hr.
  destruct Hr as [[-> _]|(p & _ & -> & Hrow & Hp & Hk)]; [exact H|].
  apply constraints_hold_insert; rewrite ?Hrow; simpl; assumption.
Qed.

(** *** Idempotent retries *)

Lemma idempotency_lookup_truthy (st : Store) (k : string) :
  truthy k = true ->
  idempotency_lookup st (Some k) = findUnique_idempotencyKey st k.
Proof. intros H. simpl. rewrite H. reflexivity. Qed.

Lemma findUnique_idempotencyKey_unique (st : Store) (k : string)
    (r : Registration) :
  constraints_hold st = true ->
  In r (registrations st) -> idempotencyKey r = Some k ->
  findUnique_idempotencyKey st k = Some r.
Proof.
  intros Hc Hin Hk. unfold findUnique_idempotencyKey.
  destruct (find (has_key k) (registrations st)) as [r'|] eqn:Hf.
  - apply find_some in Hf as [Hin' Hk'].
    f_equal. apply (at_most_one (has_key k) (registrations st)); auto.
    + apply (count_key_le_1 st k Hc).
    + apply has_key_iff; exact Hk.
  - apply (find_none _ _ Hf) in Hin.
    apply has_key_iff in Hk. congruence.
Qed.

(** C3 (counterexample).  Two retries that do not give back what the first
    call gave.  With the empty string as key, the first call stores the key
    but the retry skips the lookup and fails with AlreadyRegistered.  With
    the key "k1", the first call returns the row with its competition and
    user, the retry the bare row. *)
Lemma register_retry_counterexample :
  (exists p st1 q1,
     register (env_at 10 "r1") (store0 5) queue0 "c1" "u1" (Some "")
       = (Ok p, st1, q1)
     /\ idempotencyKey (row p) = Some ""
     /\ In (row p) (registrations st1)
     /\ register (env_at 20 "r2") st1 q1 "c1" "u1" (Some "")
        = (Throw AlreadyRegistered, st1, q1))
  /\ (exists p st1 q1,
        register (env_at 10 "r1") (store0 5) queue0 "c1" "u1" (Some "k1")
          = (Ok p, st1, q1)
        /\ register (env_at 20 "r2") st1 q1 "c1" "u1" (Some "k1")
           = (Ok (bare (row p)), st1, q1)
        /\ Ok (bare (row p)) <> Ok p).
Proof.
  split.
  - eexists _, _, _. split; [vm_compute; reflexivity|].
    repeat split; try reflexivity. simpl. auto.
  - eexists _, _, _. split; [vm_compute; reflexivity|].
    split; [reflexivity|]. discriminate.
Qed.

(** C3 (amended).  A call of [register] with a non-empty idempotency key
    under which a registration is stored returns a result whose row is that
    stored registration, whatever has become of the competition (full, past
    its deadline, deleted, even absent); the store and the queue are as
    before, and exactly one row carries the key. *)
Theorem register_idempotent_hit (env : Env) (st : Store) (q : Queue)
    (c u : Id) (k : string) (r : Registration) :
  constraints_hold st = true ->
  k <> "" ->
  In r (registrations st) ->
  idempotencyKey r = Some k ->
  (exists p, register env st q c u (Some k) = (Ok p, st, q) /\ row p = r)
  /\ count_key k (registrations st) = 1%nat.
Proof.
  intros Hc Hk Hin Hkey.
  truthy_key k Ht.
  split.
  - exists (bare r). split; [|reflexivity].
    unfold register. rewrite (idempotency_lookup_truthy st k Ht).
    rewrite (findUnique_idempotencyKey_unique st k r Hc Hin Hkey).
    reflexivity.
  - pose proof (count_key_le_1 st k Hc) as Hle.
    assert (Hge : In r (filter (has_key k) (registrations st))).
    { apply filter_In. split; [exact Hin | apply has_key_iff; exact Hkey]. }
    unfold count_key in *.
    destruct (filter (has_key k) (registrations st)) as [|x [|y l]];
      simpl in *; [tauto | reflexivity | lia].
Qed.

Lemma register_idempotent_hit_witness :
  (exists p,
     register (env_at 5000 "r2")
       (store_with 1 [registration_of "r1" "u1" (Some "k1") 10])
       queue0 "c1" "u1" (Some "k1")
     = (Ok p, store_with 1 [registration_of "r1" "u1" (Some "k1") 10], queue0)
     /\ row p = registration_of "r1" "u1" (Some "k1") 10)
  /\ count_key "k1"
       (registrations (store_with 1 [registration_of "r1" "u1" (Some "k1") 10]))
     = 1%nat.
Proof.
  apply (register_idempotent_hit (env_at 5000 "r2")
           (store_with 1 [registration_of "r1" "u1" (Some "k1") 10])
           queue0 "c1" "u1" "k1" (registration_of "r1" "u1" (Some "k1") 10)).
  - reflexivity.
  - discriminate.
  - simpl; auto.
  - reflexivity.
Defined.

(** X4.  The first call with a fresh, non-empty key creates the row; the
    same call again returns the same row and leaves the store and the queue
    as the first call left them. *)
Lemma register_twice_same_key (env env' : Env) (st st1 : Store) (q q1 : Queue)
    (c u : Id) (k : string) (p : RegistrationPayload) :
  k <> "" ->
  findUnique_idempotencyKey st k = None ->
  register env st q c u (Some k) = (Ok p, st1, q1) ->
  register env' st1 q1 c u (Some k) = (Ok (bare (row p)), st1, q1)
  /\ reg_id (row p) = uuid env
  /\ registrations st1 = (registrations st ++ [row p])%list.
Proof.
  intros Hk Hnone Hreg.
  truthy_key k Ht.
  pose proof Hreg as Hst. apply register_store in Hst.
  destruct Hst as [[-> ->]|(p' & [= <-] & -> & Hrow & _)].
  - unfold register in Hreg.
    rewrite (idempotency_lookup_truthy st k Ht), Hnone in Hreg.
    rewrite transaction_admission in Hreg.
    destruct (admission env u c (Some k) st) as [[p1|e] s1] eqn:Ha.
    + apply admission_ok, create_registration_ok in Ha.
      destruct Ha as (_ & Hs1 & _).
      destruct (addConfirmationEmail _ _ _ _) as [j q2].
      injection Hreg as _ Hs _. exfalso. rewrite Hs1 in Hs.
      apply (f_equal registrations) in Hs. simpl in Hs.
      apply (f_equal (@List.length Registration)) in Hs.
      rewrite length_app in Hs. simpl in Hs. lia.
    + discriminate.
  - split; [|split; [rewrite Hrow; reflexivity | reflexivity]].
    unfold register. rewrite (idempotency_lookup_truthy _ k Ht).
    unfold findUnique_idempotencyKey in *. simpl.
    rewrite (find_app_none _ _ _ Hnone). simpl.
    assert (Hh : has_key k (row p) = true)
      by (apply has_key_iff; rewrite Hrow; reflexivity).
    rewrite Hh. reflexivity.
Qed.

(** C10.  A call of [register] whose idempotency key is the key of a stored
    registration writes nothing: the store and the queue it leaves are the
    ones it found.  (The empty key is not looked up, but then the call ends
    in an error before any row or task is written.) *)
Theorem register_hit_writes_nothing (env : Env) (st : Store) (q : Queue)
    (c u : Id) (k : string) (r : Registration) :
  In r (registrations st) ->
  idempotencyKey r = Some k ->
  exists res, register env st q c u (Some k) = (res, st, q).
Proof.
  intros Hin Hkey.
  destruct (register env st q c u (Some k)) as [[res st'] q'] eqn:Hreg.
  exists res. apply register_store in Hreg.
  destruct Hreg as [[-> ->]|(p & _ & _ & _ & _ & Hfree)]; [reflexivity|].
  exfalso. simpl in Hfree. apply negb_true_iff in Hfree.
  assert (Hex : existsb (has_key k) (registrations st) = true).
  { apply existsb_exists. exists r. split; [exact Hin|].
    apply has_key_iff; exact Hkey. }
  congruence.
Qed.

Lemma register_hit_writes_nothing_witness :
  exists res,
    register (env_at 5000 "r2")
      (store_with 1 [registration_of "r1" "u1" (Some "k1") 10])
      queue0 "c9" "u2" (Some "k1")
    = (res, store_with 1 [registration_of "r1" "u1" (Some "k1") 10], queue0).
Proof.
  apply (register_hit_writes_nothing (env_at 5000 "r2")
           (store_with 1 [registration_of "r1" "u1" (Some "k1") 10])
           queue0 "c9" "u2" "k1" (registration_of "r1" "u1" (Some "k1") 10)).
  - simpl; auto.
  - reflexivity.
Defined.

(** *** The confirmation handler *)

Lemma send_confirmation_throw (env : Env) (st st' : Store) (job : Job)
    (e : Exception) :
  send_confirmation env st job = (Throw e, st') -> st' = st.
Proof.
  unfold send_confirmation.
  destruct (findUnique_registration _ _) as [r|];
    [|intros [= _ <-]; reflexivity].
  destruct (findUnique_user st (userId r)),
           (findUnique_competition st (competitionId r));
    try (intros [= _ <-]; reflexivity).
  destruct (findUnique_user st (job_userId (data job)));
    [discriminate | intros [= _ <-]; reflexivity].
Qed.

Lemma send_confirmation_ok (env : Env) (st st' : Store) (job : Job) (b : bool) :
  send_confirmation env st job = (Ok b, st') ->
  exists registration user competition,
    findUnique_registration st (job_registrationId (data job)) = Some registration
    /\ findUnique_user st (userId registration) = Some user
    /\ findUnique_competition st (competitionId registration) = Some competition
    /\ findUnique_user st (job_userId (data job)) <> None
    /\ b = true
    /\ st' = with_mailBox st
               (mailBox st ++
                [{| mail_id := uuid env;
                    mail_userId := job_userId (data job);
                    to := user_email user;
                    subject := confirmation_subject competition;
                    body := confirmation_body user competition;
                    sentAt := now env;
                    jobId := Some (job_id_string job) |}]).
Proof.
  unfold send_confirmation.
  destruct (findUnique_registration _ _) as [r|]; [|discriminate].
  destruct (findUnique_user st (userId r)) as [usr|] eqn:Husr;
    [|discriminate].
  destruct (findUnique_competition st (competitionId r)) as [comp|] eqn:Hcomp;
    [|discriminate].
  destruct (findUnique_user st (job_userId (data job))) eqn:Hu;
    [|discriminate].
  intros [= <- <-]. exists r, usr, comp.
  repeat split; try reflexivity; try assumption. discriminate.
Qed.

(** The handler records every throw, whatever the number of attempts made. *)
Lemma handleConfirmation_throw (env : Env) (st st' : Store) (job : Job)
    (e : Exception) :
  handleConfirmation env st job = (Throw e, st') ->
  st' = with_failedJob st
          (failedJob st ++
           [{| jobName := "sendConfirmation"; jobData := data job;
               error := message_of e; fj_attempts := attemptsMade job;
               failedAt := now env |}]).
Proof.
  unfold handleConfirmation.
  destruct (send_confirmation env st job) as [[b|e'] s] eqn:H; [discriminate|].
  apply send_confirmation_throw in H. subst s.
  intros [= <- <-]. reflexivity.
Qed.

Lemma handleConfirmation_ok (env : Env) (st st' : Store) (job : Job) (b : bool) :
  handleConfirmation env st job = (Ok b, st') ->
  send_confirmation env st job = (Ok b, st').
Proof.
  unfold handleConfirmation.
  destruct (send_confirmation env st job) as [[b'|e'] s];
    [intros [= <- <-]; reflexivity | discriminate].
Qed.

Lemma handleConfirmation_registrations (env : Env) (st : Store) (job : Job) :
  registrations (snd (handleConfirmation env st job)) = registrations st.
Proof.
  destruct (handleConfirmation env st job) as [[b|e] st'] eqn:H; simpl.
  - apply handleConfirmation_ok, send_confirmation_ok in H.
    destruct H as (r & usr & comp & _ & _ & _ & _ & _ & ->). reflexivity.
  - apply handleConfirmation_throw in H. subst. reflexivity.
Qed.

Lemma work_registrations (env : Env) (st : Store) (q : Queue) :
  registrations (fst (work env st q)) = registrations st.
Proof.
  unfold work. destruct (waiting (promote (now env) q)) as [|job rest];
    [reflexivity|].
  unfold dispatch. destruct (String.eqb (name job) "sendConfirmation").
  - pose proof (handleConfirmation_registrations env st job) as H.
    destruct (handleConfirmation env st job) as [[b|e] st']; exact H.
  - reflexivity.
Qed.

(** *** The constraints under interleaving *)

(** Whatever the point a call has reached, its next step leaves the
    constraints in force: the only write is [create], and the database
    refuses a row that would break them. *)
Lemma step_keeps_constraints (st : Store) (q : Queue) (k : Call) :
  constraints_hold st = true ->
  constraints_hold (fst (fst (step st q k))) = true.
Proof.
  intros H. unfold step. destruct (pc k) as [| | | |p|r].
  - destruct (idempotency_lookup st (call_key k)); exact H.
  - destruct (check_competition _ _ _); exact H.
  - destruct (findUnique_userId_competitionId _ _ _); exact H.
  - destruct (create_registration (call_env k) st (call_userId k)
                (call_competitionId k) (call_key k)) as [[p|e] st'] eqn:Hcr;
      [|exact H].
    apply create_registration_ok in Hcr.
    destruct Hcr as (Hrow & -> & Hp & Hk & _). simpl.
    apply constraints_hold_insert; rewrite ?Hrow; simpl; assumption.
  - destruct (addConfirmationEmail _ _ _ _). exact H.
  - exact H.
Qed.

Lemma run_keeps_constraints (schedule : list nat) :
  forall (st : Store) (q : Queue) (ks : list Call),
  constraints_hold st = true ->
  constraints_hold (fst (fst (run schedule st q ks))) = true.
Proof.
  induction schedule as [|i schedule IH]; intros st q ks H; [exact H|].
  simpl. destruct (nth_error ks i) as [k|]; [|apply IH; exact H].
  pose proof (step_keeps_constraints st q k H) as Hs.
  destruct (step st q k) as [[st' q'] k']. apply IH. exact Hs.
Qed.

(** *** One registration per user and competition *)

(** C4 (counterexample).  The competition has capacity 1 and user u1 holds
    its only place; a second call for the same pair, without a key, fails
    with CapacityExceeded, not with AlreadyRegistered. *)
Lemma register_second_call_counterexample :
  findUnique_userId_competitionId
    (store_with 1 [registration_of "r1" "u1" None 10]) "u1" "c1"
    = Some (registration_of "r1" "u1" None 10)
  /\ register (env_at 20 "r2") (store_with 1 [registration_of "r1" "u1" None 10])
       queue0 "c1" "u1" None
     = (Throw CapacityExceeded,
        store_with 1 [registration_of "r1" "u1" None 10], queue0)
  /\ CapacityExceeded <> AlreadyRegistered.
Proof.
  split; [reflexivity|]. split; [reflexivity|]. discriminate.
Qed.

(** C4 (amended).  On a store that satisfies the constraints, [register]
    leaves a store that satisfies them: at most one registration per user
    and competition; a worker turn leaves the registrations alone, and
    does any interleaving of later calls leave at most one per pair.  A second
    call for an already registered pair, without a key, writes nothing and
    fails with the error of the first check that refuses it: NotFound when
    the competition is absent or deleted, DeadlineExceeded when it is
    present and the deadline has passed, CapacityExceeded when it is within
    its deadline and full, and AlreadyRegistered only when the competition
    is present, not deleted, within its deadline and below capacity. *)
Theorem register_keeps_pairs_unique (env : Env) (st : Store) (q : Queue)
    (c u : Id) (key : option string) (res : result RegistrationPayload)
    (st' : Store) (q' : Queue) :
  constraints_hold st = true ->
  register env st q c u key = (res, st', q') ->
  (forall u' c', (count_pair u' c' (registrations st') <= 1)%nat)
  /\ (forall env' q0, registrations (fst (work env' st' q0)) = registrations st')
  /\ (forall schedule q0 ks u' c',
        (count_pair u' c'
           (registrations (fst (fst (run schedule st' q0 ks)))) <= 1)%nat)
  /\ (key = None ->
      findUnique_userId_competitionId st u c <> None ->
      st' = st /\ q' = q
      /\ exists e,
           res = Throw e
           /\ (e = NotFound \/ e = DeadlineExceeded \/ e = CapacityExceeded
               \/ e = AlreadyRegistered)
           /\ (findUnique_competition st c = None -> e = NotFound)
           /\ (forall comp,
                 findUnique_competition st c = Some comp ->
                 (comp_deletedAt comp <> None -> e = NotFound)
                 /\ (comp_deletedAt comp = None ->
                     now env > regDeadline comp -> e = DeadlineExceeded)
                 /\ (comp_deletedAt comp = None ->
                     now env <= regDeadline comp ->
                     count_registrations st c >= capacity comp ->
                     e = CapacityExceeded)
                 /\ (comp_deletedAt comp = None ->
                     now env <= regDeadline comp ->
                     count_registrations st c < capacity comp ->
                     e = AlreadyRegistered))).
Proof.
  intros Hc Hreg.
  pose proof (register_keeps_constraints env st q c u key res st' q' Hc Hreg)
    as Hc'.
  split; [intros u' c'; apply count_pair_le_1; exact Hc'|].
  split; [intros; apply work_registrations|].
  split.
  { intros schedule q0 ks u' c'. apply count_pair_le_1.
    apply run_keeps_constraints. exact Hc'. }
  intros -> Hsome.
  rewrite (register_no_hit env st q c u None eq_refl) in Hreg.
  unfold admission, check_competition in Hreg.
  destruct (findUnique_competition st c) as [comp|].
  2:{ injection Hreg as <- <- <-. repeat split.
      exists NotFound. repeat split; auto; discriminate. }
  destruct (comp_deletedAt comp) eqn:Hd.
  { injection Hreg as <- <- <-. repeat split.
    exists NotFound.
    repeat split; auto; try discriminate; intros; congruence. }
  destruct (Z.gtb_spec (now env) (regDeadline comp)).
  { injection Hreg as <- <- <-. repeat split.
    exists DeadlineExceeded.
    repeat split; auto; try discriminate;
      match goal with
      | H : Some _ = Some _ |- _ => injection H as <-
      end; intros; try congruence; lia. }
  destruct (Z.geb_spec (count_registrations st c) (capacity comp)).
  { injection Hreg as <- <- <-. repeat split.
    exists CapacityExceeded.
    repeat split; auto; try discriminate;
      match goal with
      | H : Some _ = Some _ |- _ => injection H as <-
      end; intros; try congruence; lia. }
  destruct (findUnique_userId_competitionId st u c); [|congruence].
  injection Hreg as <- <- <-. repeat split.
  exists AlreadyRegistered.
  repeat split; auto; try discriminate;
    match goal with
    | H : Some _ = Some _ |- _ => injection H as <-
    end; intros; try congruence; lia.
Qed.

Lemma register_keeps_pairs_unique_witness :
  let r1 := registration_of "r1" "u1" None 10 in
  let full := store_with 1 [r1] in
  let open := store_with 5 [r1] in
  let gone :=
    {| users := [alice; charlie; dana];
       competitions :=
         [{| comp_id := "c1"; title := "Hackathon 2025"; capacity := 5;
             regDeadline := 1000; startDate := Some 86400000;
             comp_deletedAt := Some 15 |}];
       registrations := [r1]; mailBox := []; failedJob := [] |} in
  let second env st := register env st queue0 "c1" "u1" None in
  (count_pair "u1" "c1"
     (registrations (snd (fst (second (env_at 20%Z "r2") open)))) <= 1)%nat
  /\ (fst (fst (second (env_at 20 "r2") open)) = Throw AlreadyRegistered
      /\ snd (fst (second (env_at 20 "r2") open)) = open)
  /\ (fst (fst (second (env_at 20 "r2") full)) = Throw CapacityExceeded
      /\ snd (fst (second (env_at 20 "r2") full)) = full)
  /\ (fst (fst (second (env_at 2000 "r2") open)) = Throw DeadlineExceeded
      /\ snd (fst (second (env_at 2000 "r2") open)) = open)
  /\ (fst (fst (second (env_at 20 "r2") gone)) = Throw NotFound
      /\ snd (fst (second (env_at 20 "r2") gone)) = gone).
Proof.
  intros r1 full open gone second.
  assert (T : forall env st,
             constraints_hold st = true ->
             findUnique_userId_competitionId st "u1" "c1" <> None ->
             (count_pair "u1" "c1"
                (registrations (snd (fst (second env st)))) <= 1)%nat
             /\ snd (fst (second env st)) = st
             /\ exists e,
                  fst (fst (second env st)) = Throw e
                  /\ forall comp,
                       findUnique_competition st "c1" = Some comp ->
                       (comp_deletedAt comp <> None -> e = NotFound)
                       /\ (comp_deletedAt comp = None ->
                           now env > regDeadline comp ->
                           e = DeadlineExceeded)
                       /\ (comp_deletedAt comp = None ->
                           now env <= regDeadline comp ->
                           count_registrations st "c1" >= capacity comp ->
                           e = CapacityExceeded)
                       /\ (comp_deletedAt comp = None ->
                           now env <= regDeadline comp ->
                           count_registrations st "c1" < capacity comp ->
                           e = AlreadyRegistered)).
  { intros env st Hc Hpair.
    destruct (register_keeps_pairs_unique env st queue0 "c1" "u1" None
                (fst (fst (second env st))) (snd (fst (second env st)))
                (snd (second env st)) Hc)
      as (Hone & _ & _ & Hsecond).
    { unfold second.
      destruct (register env st queue0 "c1" "u1" None) as [[res st'] q'].
      reflexivity. }
    destruct (Hsecond eq_refl Hpair)
      as (Hst & _ & e & Hres & _ & _ & Hcases).
    split; [apply Hone|]. split; [exact Hst|].
    exists e. split; [exact Hres|exact Hcases]. }
  split.
  { destruct (T (env_at 20 "r2") open) as (Hone & _);
      [reflexivity|discriminate|exact Hone]. }
  split.
  { destruct (T (env_at 20 "r2") open) as (_ & Hst & e & Hres & Hcases);
      [reflexivity|discriminate|].
    destruct (Hcases (hackathon 5) eq_refl) as (_ & _ & _ & Hopen).
    rewrite Hres, Hst, (Hopen eq_refl); [split; reflexivity| |];
      vm_compute; congruence. }
  split.
  { destruct (T (env_at 20 "r2") full) as (_ & Hst & e & Hres & Hcases);
      [reflexivity|discriminate|].
    destruct (Hcases (hackathon 1) eq_refl) as (_ & _ & Hfull & _).
    rewrite Hres, Hst, (Hfull eq_refl); [split; reflexivity| |];
      vm_compute; congruence. }
  split.
  { destruct (T (env_at 2000 "r2") open) as (_ & Hst & e & Hres & Hcases);
      [reflexivity|discriminate|].
    destruct (Hcases (hackathon 5) eq_refl) as (_ & Hlate & _ & _).
    rewrite Hres, Hst, (Hlate eq_refl); [split; reflexivity|];
      vm_compute; congruence. }
  destruct (T (env_at 20 "r2") gone) as (_ & Hst & e & Hres & Hcases);
    [reflexivity|discriminate|].
  destruct (Hcases _ eq_refl) as (Hgone & _ & _ & _).
  rewrite Hres, Hst, Hgone; [split; reflexivity|discriminate].
Defined.

(** *** Enqueueing after the commit *)

Lemma add_throw (q q' : Queue) (n : string) (d : EmailJob) (o : JobOptions)
    (e : Exception) :
  add q n d o = (Throw e, q') -> q' = q /\ redis_up q = false.
Proof.
  unfold add. destruct (redis_up q); [discriminate|].
  intros [= _ <-]. auto.
Qed.

(** C7.  When the admission transaction has committed a registration and
    the enqueue of the confirmation task then throws, [register] still
    returns the registration; its row is in the store the call leaves, and
    the queue is untouched. *)
Theorem register_survives_enqueue_failure (env : Env) (st st' : Store)
    (q q' : Queue) (c u : Id) (key : option string) (p : RegistrationPayload)
    (e : Exception) :
  idempotency_lookup st key = None ->
  transaction (admission env u c key) st = (Ok p, st') ->
  addConfirmationEmail q (reg_id (row p)) u c = (Throw e, q') ->
  register env st q c u key = (Ok p, st', q)
  /\ In (row p) (registrations st')
  /\ q' = q.
Proof.
  intros Hmiss Htx Hadd.
  pose proof Hadd as Hq. apply add_throw in Hq. destruct Hq as [-> _].
  split; [|split; [|reflexivity]].
  - unfold register. rewrite Hmiss, Htx, Hadd. reflexivity.
  - rewrite transaction_admission in Htx.
    apply admission_ok, create_registration_ok in Htx.
    destruct Htx as (_ & -> & _). simpl. apply in_or_app. right. simpl. auto.
Qed.

Lemma register_survives_enqueue_failure_witness :
  register (env_at 10 "r1") (store0 5) queue_down "c1" "u1" (Some "k1")
  = (Ok {| row := registration_of "r1" "u1" (Some "k1") 10;
           include_competition := Some (hackathon 5);
           include_user := Some alice |},
     store_with 5 [registration_of "r1" "u1" (Some "k1") 10], queue_down).
Proof.
  apply (register_survives_enqueue_failure (env_at 10 "r1") (store0 5)
           (store_with 5 [registration_of "r1" "u1" (Some "k1") 10])
           queue_down queue_down "c1" "u1" (Some "k1")
           {| row := registration_of "r1" "u1" (Some "k1") 10;
              include_competition := Some (hackathon 5);
              include_user := Some alice |}
           (JsError "connect ECONNREFUSED")).
  - reflexivity.
  - reflexivity.
  - reflexivity.
Defined.

(** *** Redelivery of a confirmation task *)

(** A new [MailBox] row changes no read of the handler. *)
Lemma reads_with_mailBox (st : Store) (ms : list MailBox) :
  (forall i, findUnique_registration (with_mailBox st ms) i
             = findUnique_registration st i)
  /\ (forall i, findUnique_user (with_mailBox st ms) i = findUnique_user st i)
  /\ (forall i, findUnique_competition (with_mailBox st ms) i
                = findUnique_competition st i).
Proof. repeat split. Qed.

(** C8 (counterexample).  The task of registration r1 is delivered, and
    delivered again: the mailbox of the user holds two confirmations, against
    one after a single delivery. *)
Lemma handleConfirmation_redelivery_counterexample :
  let st := store_with 5 [registration_of "r1" "u1" None 10] in
  let job := confirmation_job 1 "r1" "u1" 0 in
  let once := snd (handleConfirmation (env_at 100 "m1") st job) in
  let twice := snd (handleConfirmation (env_at 200 "m2") once job) in
  fst (handleConfirmation (env_at 100 "m1") st job) = Ok true
  /\ fst (handleConfirmation (env_at 200 "m2") once job) = Ok true
  /\ List.length (mailBox once) = 1%nat
  /\ List.length (mailBox twice) = 2%nat
  /\ map jobId (mailBox twice) = [Some "1"; Some "1"]
  /\ twice <> once.
Proof.
  repeat split; try reflexivity. vm_compute. discriminate.
Qed.

(** C8 (amended).  Each execution of the handler that succeeds appends one
    [MailBox] row.  Executed a second time with the same payload, the
    handler succeeds again and appends a second row, which agrees with the
    first on user, address, subject, body and job id: a redelivery shows as
    a second confirmation. *)
Theorem handleConfirmation_twice (env1 env2 : Env) (st st1 : Store) (job : Job)
    (b : bool) :
  handleConfirmation env1 st job = (Ok b, st1) ->
  exists m1 m2 st2,
    mailBox st1 = (mailBox st ++ [m1])%list
    /\ handleConfirmation env2 st1 job = (Ok true, st2)
    /\ mailBox st2 = (mailBox st ++ [m1; m2])%list
    /\ mail_userId m2 = mail_userId m1
    /\ to m2 = to m1
    /\ subject m2 = subject m1
    /\ body m2 = body m1
    /\ jobId m2 = jobId m1
    /\ jobId m1 = Some (job_id_string job)
    /\ failedJob st2 = failedJob st.
Proof.
  intros H. apply handleConfirmation_ok, send_confirmation_ok in H.
  destruct H as (r & usr & comp & Hr & Husr & Hcomp & Hu & _ & ->).
  eexists _, _, _. split; [reflexivity|].
  split.
  - unfold handleConfirmation, send_confirmation.
    destruct (reads_with_mailBox st
                (mailBox st ++
                 [{| mail_id := uuid env1;
                     mail_userId := job_userId (data job);
                     to := user_email usr;
                     subject := confirmation_subject comp;
                     body := confirmation_body usr comp;
                     sentAt := now env1;
                     jobId := Some (job_id_string job) |}]))
      as (Rr & Ru & Rc).
    rewrite Rr, Hr, !Ru, Husr, Rc, Hcomp.
    destruct (findUnique_user st (job_userId (data job)));
      [reflexivity | congruence].
  - simpl. rewrite <- app_assoc. repeat split; reflexivity.
Qed.

Lemma handleConfirmation_twice_witness :
  exists m1 m2 st2,
    mailBox (snd (handleConfirmation (env_at 100 "m1")
                    (store_with 5 [registration_of "r1" "u1" None 10])
                    (confirmation_job 1 "r1" "u1" 0)))
      = [m1]
    /\ handleConfirmation (env_at 200 "m2")
         (snd (handleConfirmation (env_at 100 "m1")
                 (store_with 5 [registration_of "r1" "u1" None 10])
                 (confirmation_job 1 "r1" "u1" 0)))
         (confirmation_job 1 "r1" "u1" 0)
       = (Ok true, st2)
    /\ mailBox st2 = [m1; m2].
Proof.
  destruct (handleConfirmation_twice (env_at 100 "m1") (env_at 200 "m2")
              (store_with 5 [registration_of "r1" "u1" None 10])
              (snd (handleConfirmation (env_at 100 "m1")
                      (store_with 5 [registration_of "r1" "u1" None 10])
                      (confirmation_job 1 "r1" "u1" 0)))
              (confirmation_job 1 "r1" "u1" 0) true eq_refl)
    as (m1 & m2 & st2 & H1 & H2 & H3 & _).
  exists m1, m2, st2. auto.
Defined.

(** *** Retries and the dead letter table *)

(** The queue that holds the one confirmation task of registration [i]. *)
Lemma addConfirmationEmail_queue0 (i u : Id) :
  addConfirmationEmail queue0 i u "c1"
  = (Ok (confirmation_job 1 i u 0),
     {| redis_up := true; next_job_id := 2;
        waiting := [confirmation_job 1 i u 0]; delayed := []; failed := [];
        completed := [] |}).
Proof. reflexivity. Qed.

(** Whatever the attempt, a throwing handler leaves one more [FailedJob]
    row, with the attempts made before this one. *)
Lemma work_failure_recorded (env : Env) (st : Store) (q : Queue) (job : Job)
    (rest : list Job) (e : Exception) (st' : Store) :
  waiting (promote (now env) q) = job :: rest ->
  name job = "sendConfirmation" ->
  handleConfirmation env st job = (Throw e, st') ->
  failedJob (fst (work env st q))
  = (failedJob st ++
     [{| jobName := "sendConfirmation"; jobData := data job;
         error := message_of e; fj_attempts := attemptsMade job;
         failedAt := now env |}])%list.
Proof.
  intros Hw Hn Hh. unfold work, dispatch. rewrite Hw, Hn. simpl.
  rewrite Hh. simpl. apply handleConfirmation_throw in Hh. subst. reflexivity.
Qed.

(** C5 (the code at the failing input).  The confirmation task of a
    registration that is not in the store is tried at instants 0, 2000 and
    6000 and fails each time.  Each failure writes a [FailedJob] row, three
    in all, with attempts 0, 1 and 2; none records 3.  After the third the
    task sits in the failed set with three attempts made, nothing waits and
    nothing is delayed, and a later worker turn finds nothing to do. *)
Theorem three_failures_three_failed_jobs :
  let q := snd (addConfirmationEmail queue0 "r9" "u1" "c1") in
  let end_ := works [env_at 0 "m1"; env_at 2000 "m2"; env_at 6000 "m3"]
                (store0 5) q in
  map fj_attempts (failedJob (fst end_)) = [0; 1; 2]%nat
  /\ map error (failedJob (fst end_))
     = ["Registration not found"; "Registration not found";
        "Registration not found"]
  /\ mailBox (fst end_) = []
  /\ waiting (snd end_) = []
  /\ delayed (snd end_) = []
  /\ failed (snd end_) = [confirmation_job 1 "r9" "u1" 3]
  /\ (forall env, work env (fst end_) (snd end_) = end_).
Proof.
  repeat split.
Qed.

(** C6 (the code at the failing input).  The confirmation task of
    registration r1 is tried at instant 0 and at instant 2000 while the row
    is not in the store, and at instant 6000 once it is.  The two failures
    reschedule the task 2000 and 4000 later, and each writes a [FailedJob]
    row; the third attempt creates the [MailBox] row and removes the task.
    Two dead letter rows are left for a task that succeeded. *)
Theorem two_failures_then_success :
  let q := snd (addConfirmationEmail queue0 "r1" "u1" "c1") in
  let first := work (env_at 0 "m1") (store0 5) q in
  let second := work (env_at 2000 "m2") (fst first) (snd first) in
  let st2 := with_registrations (fst second)
               [registration_of "r1" "u1" None 2500] in
  let third := work (env_at 6000 "m3") st2 (snd second) in
  delayed (snd first) = [(0 + 2000, confirmation_job 1 "r1" "u1" 1)]
  /\ delayed (snd second) = [(2000 + 4000, confirmation_job 1 "r1" "u1" 2)]
  /\ List.length (mailBox (fst third)) = 1%nat
  /\ waiting (snd third) = [] /\ delayed (snd third) = []
  /\ failed (snd third) = []
  /\ map fj_attempts (failedJob (fst third)) = [0; 1]%nat.
Proof.
  repeat split.
Qed.

(** *** The scheduler *)

Lemma enqueue_reminders_up (rs : list Registration) (q : Queue) :
  redis_up q = true ->
  enqueue_reminders q rs
  = (Ok tt, enqueued q (reminder_jobs (next_job_id q) rs)).
Proof.
  revert q. induction rs as [|r rs IH]; intros q Hup.
  - simpl. unfold enqueued. simpl.
    rewrite app_nil_r, Nat.add_0_r. destruct q; reflexivity.
  - simpl. unfold addReminderEmail, add. rewrite Hup.
    rewrite IH by reflexivity. unfold enqueued. simpl.
    rewrite Hup, <- app_assoc, Nat.add_succ_r. reflexivity.
Qed.

Lemma reminder_jobs_data (n : nat) (rs : list Registration) :
  map data (reminder_jobs n rs)
  = map (fun r => {| job_registrationId := reg_id r; job_userId := userId r;
                     job_competitionId := competitionId r; type := reminder |})
        rs
  /\ map name (reminder_jobs n rs) = repeat "sendReminder" (List.length rs)
  /\ List.length (reminder_jobs n rs) = List.length rs.
Proof.
  revert n. induction rs as [|r rs IH]; intros n; simpl; [auto|].
  destruct (IH (S n)) as (-> & -> & ->). auto.
Qed.

(** The registrations a run reminds are the active registrations of the
    competitions of the window. *)
Lemma due_reminders_In (lookahead delta : Z) (t : Instant) (st : Store)
    (r : Registration) :
  In r (due_reminders lookahead delta t st) <->
  In r (registrations st) /\ active r = true
  /\ exists c, In c (competitions st) /\ in_window lookahead delta t c = true
               /\ competitionId r = comp_id c.
Proof.
  unfold due_reminders. rewrite in_flat_map. split.
  - intros (c & Hc & Hr). apply filter_In in Hc as [Hc Hw].
    apply filter_In in Hr as [Hr Ha]. apply andb_true_iff in Ha as [Hon Ha].
    apply String.eqb_eq in Hon. repeat split; auto. exists c. auto.
  - intros (Hr & Ha & c & Hc & Hw & Hon). exists c. split.
    + apply filter_In. auto.
    + apply filter_In. split; [exact Hr|].
      apply andb_true_iff. split; [|exact Ha].
      unfold on_competition. apply String.eqb_eq. exact Hon.
Qed.

(** C9.  A run of the scheduler on a queue it can reach adds to the waiting
    tasks one reminder task per active registration of each competition of
    the window, in order, and nothing else; so a run that finds one
    competition with two active registrations adds exactly two. *)
Theorem sendReminders_one_task_per_registration (lookahead delta : Z)
    (env : Env) (st : Store) (q : Queue) :
  redis_up q = true ->
  let due := due_reminders lookahead delta (now env) st in
  let tasks := reminder_jobs (next_job_id q) due in
  sendReminders lookahead delta env st q = (Ok tt, enqueued q tasks)
  /\ waiting (enqueued q tasks) = (waiting q ++ tasks)%list
  /\ map data tasks
     = map (fun r => {| job_registrationId := reg_id r; job_userId := userId r;
                        job_competitionId := competitionId r;
                        type := reminder |}) due
  /\ List.length tasks = List.length due
  /\ (forall c r1 r2,
        filter (in_window lookahead delta (now env)) (competitions st) = [c] ->
        filter (fun r => on_competition (comp_id c) r && active r)
               (registrations st) = [r1; r2] ->
        List.length tasks = 2%nat).
Proof.
  intros Hup due tasks.
  split; [apply enqueue_reminders_up; exact Hup|].
  split; [reflexivity|].
  destruct (reminder_jobs_data (next_job_id q) due) as (Hd & _ & Hl).
  split; [exact Hd|]. split; [exact Hl|].
  intros c r1 r2 Hc Hr. unfold tasks. rewrite Hl.
  unfold due, due_reminders. rewrite Hc. simpl. rewrite Hr. reflexivity.
Qed.

Lemma sendReminders_one_task_per_registration_witness :
  sendReminders (23 * hour) (2 * hour) (env_at 0 "x") store_reminders queue0
  = (Ok tt,
     enqueued queue0
       (reminder_jobs 1 [registration_of "r1" "u1" None 10;
                         registration_of "r2" "u2" None 20]))
  /\ List.length
       (reminder_jobs 1 [registration_of "r1" "u1" None 10;
                         registration_of "r2" "u2" None 20]) = 2%nat.
Proof.
  destruct (sendReminders_one_task_per_registration (23 * hour) (2 * hour)
              (env_at 0 "x") store_reminders queue0 eq_refl)
    as (Hrun & _ & _ & Hlen & _).
  split; [exact Hrun | exact Hlen].
Defined.

(** *** Calls one after the other *)

Lemma register_full (env : Env) (st : Store) (q : Queue) (c u : Id)
    (comp : Competition) :
  findUnique_competition st c = Some comp ->
  comp_deletedAt comp = None ->
  now env <= regDeadline comp ->
  capacity comp <= count_registrations st c ->
  register env st q c u None = (Throw CapacityExceeded, st, q).
Proof.
  intros Hc Hd Hopen Hfull.
  rewrite (register_no_hit env st q c u None eq_refl).
  unfold admission, check_competition. rewrite Hc, Hd.
  destruct (Z.gtb_spec (now env) (regDeadline comp)); [lia|].
  destruct (Z.geb_spec (count_registrations st c) (capacity comp)); [|lia].
  reflexivity.
Qed.

Lemma register_admits (env : Env) (st : Store) (q : Queue) (c u : Id)
    (comp : Competition) :
  findUnique_competition st c = Some comp ->
  comp_deletedAt comp = None ->
  now env <= regDeadline comp ->
  count_registrations st c < capacity comp ->
  findUnique_userId_competitionId st u c = None ->
  findUnique_user st u <> None ->
  exists p q',
    register env st q c u None
    = (Ok p, with_registrations st (registrations st ++ [row p]), q')
    /\ userId (row p) = u /\ competitionId (row p) = c.
Proof.
  intros Hc Hd Hopen Hroom Hnew Hu.
  rewrite (register_no_hit env st q c u None eq_refl).
  unfold admission, check_competition. rewrite Hc, Hd.
  destruct (Z.gtb_spec (now env) (regDeadline comp)); [lia|].
  destruct (Z.geb_spec (count_registrations st c) (capacity comp)); [lia|].
  rewrite Hnew. unfold create_registration.
  apply find_none_existsb in Hnew.
  unfold findUnique_userId_competitionId in Hnew. rewrite Hnew, Hc. simpl.
  destruct (findUnique_user st u) as [usr|]; [|congruence].
  exists {| row := new_registration env u c None;
            include_competition := Some comp; include_user := Some usr |},
         (snd (addConfirmationEmail q (uuid env) u c)).
  repeat split.
Qed.

Lemma count_registrations_insert (st : Store) (r : Registration) :
  count_registrations (with_registrations st (registrations st ++ [r]))
    (competitionId r)
  = count_registrations st (competitionId r) + 1.
Proof.
  unfold count_registrations. simpl.
  rewrite filter_app, length_app. simpl.
  unfold on_competition at 2. rewrite String.eqb_refl. simpl. lia.
Qed.

Lemma find_pair_insert_other (st : Store) (r : Registration) (u c : Id) :
  userId r <> u ->
  findUnique_userId_competitionId st u c = None ->
  findUnique_userId_competitionId
    (with_registrations st (registrations st ++ [r])) u c = None.
Proof.
  unfold findUnique_userId_competitionId. simpl. intros Hne Hnone.
  rewrite (find_app_none _ _ _ Hnone). simpl.
  unfold same_pair. apply String.eqb_neq in Hne. rewrite Hne. reflexivity.
Qed.

(** X3.  Calls by distinct, unregistered users on an open competition, one
    after the other: the first ones are admitted until the count reaches the
    capacity, every later one gets CapacityExceeded, and the count ends at
    what it was plus the number admitted. *)
Lemma register_each_fills_to_capacity (calls : list (Env * Id)) (c : Id)
    (comp : Competition) :
  forall (st : Store) (q : Queue),
  findUnique_competition st c = Some comp ->
  comp_deletedAt comp = None ->
  Forall (fun eu => now (fst eu) <= regDeadline comp) calls ->
  NoDup (map snd calls) ->
  Forall (fun eu => findUnique_user st (snd eu) <> None) calls ->
  Forall (fun eu => findUnique_userId_competitionId st (snd eu) c = None)
         calls ->
  let k := count_registrations st c in
  let m := Nat.min (List.length calls) (Z.to_nat (capacity comp - k)) in
  exists ps,
    fst (fst (register_each calls c st q))
    = (map Ok ps
       ++ repeat (Throw CapacityExceeded) (List.length calls - m))%list
    /\ List.length ps = m
    /\ count_registrations (snd (fst (register_each calls c st q))) c
       = k + Z.of_nat m.
Proof.
  induction calls as [|[env u] rest IH]; intros st q Hc Hd Hopen Hnd Hus Hnew.
  - exists []. simpl. repeat split. lia.
  - simpl in Hnd. inversion Hnd as [|? ? Hnotin Hnd']; subst.
    inversion Hopen as [|? ? Ho Hopen']; subst.
    inversion Hus as [|? ? Hu Hus']; subst.
    inversion Hnew as [|? ? Hn Hnew']; subst.
    simpl in Ho, Hu, Hn. cbn zeta. cbn [register_each List.length].
    destruct (Z_lt_le_dec (count_registrations st c) (capacity comp))
      as [Hroom|Hfull].
    + destruct (register_admits env st q c u comp Hc Hd Ho Hroom Hn Hu)
        as (p & q' & Hreg & Hpu & Hpc).
      rewrite Hreg.
      set (st' := with_registrations st (registrations st ++ [row p])).
      assert (Hcount : count_registrations st' c
                       = count_registrations st c + 1).
      { unfold st'. rewrite <- Hpc. apply count_registrations_insert. }
      destruct (IH st' q') as (ps & Hres & Hlen & Hfinal); auto.
      { apply Forall_forall. intros [e' u'] Hin.
        rewrite Forall_forall in Hnew'. specialize (Hnew' _ Hin).
        simpl in *. apply find_pair_insert_other; [|exact Hnew'].
        rewrite Hpu. intros ->. apply Hnotin.
        apply in_map_iff. exists (e', u'). auto. }
      rewrite Hcount in Hres, Hlen, Hfinal.
      destruct (register_each rest c st' q') as [[ress st''] q''].
      cbn [fst snd] in *. exists (p :: ps).
      assert (Hm : Nat.min (S (List.length rest))
                     (Z.to_nat (capacity comp - count_registrations st c))
                   = S (Nat.min (List.length rest)
                          (Z.to_nat (capacity comp
                                     - (count_registrations st c + 1)))))
        by lia.
      rewrite Hm, Hres, Hfinal. cbn [List.length map app Nat.sub].
      rewrite Hlen. repeat split. lia.
    + rewrite (register_full env st q c u comp Hc Hd Ho Hfull).
      destruct (IH st q) as (ps & Hres & Hlen & Hfinal); auto.
      destruct (register_each rest c st q) as [[ress st''] q''].
      cbn [fst snd] in *.
      assert (Hm : Z.to_nat (capacity comp - count_registrations st c) = 0%nat)
        by lia.
      rewrite Hm in *. rewrite Nat.min_0_r in *.
      destruct ps; [|discriminate]. exists [].
      rewrite Hres, Hfinal, Nat.sub_0_r. repeat split.
Qed.

(** *** Calls in flight *)

Lemma nth_error_middle (pre post : list Call) (k : Call) :
  nth_error (pre ++ k :: post) (List.length pre) = Some k.
Proof. induction pre as [|a pre IH]; simpl; [reflexivity | exact IH]. Qed.

Lemma set_nth_middle (pre post : list Call) (k k' : Call) :
  set_nth (List.length pre) k' (pre ++ k :: post) = (pre ++ k' :: post)%list.
Proof.
  induction pre as [|a pre IH]; simpl; [reflexivity | rewrite IH; reflexivity].
Qed.

Lemma run_middle (schedule : list nat) (st : Store) (q : Queue)
    (pre post : list Call) (k : Call) :
  run (List.length pre :: schedule) st q (pre ++ k :: post)
  = let '(st', q', k') := step st q k in
    run schedule st' q' (pre ++ k' :: post).
Proof.
  cbn [run]. rewrite nth_error_middle.
  destruct (step st q k) as [[st' q'] k']. rewrite set_nth_middle.
  reflexivity.
Qed.

(** Among other calls that stand still, a call that runs from its first step
    to its last does what [register] does. *)
Lemma run_call_to_its_end (schedule : list nat) (env : Env) (st : Store)
    (q : Queue) (c u : Id) (key : option string) (pre post : list Call) :
  run (repeat (List.length pre) 5 ++ schedule) st q
    (pre ++ call env c u key :: post)
  = let '(res, st', q') := register env st q c u key in
    run schedule st' q'
      (pre ++ at_pc (call env c u key) (Returned res) :: post).
Proof.
  unfold register. rewrite transaction_admission. unfold admission.
  cbn [repeat app].
  step_middle_with run_middle.
  destruct (idempotency_lookup st key);
    [repeat step_middle_with run_middle; reflexivity|].
  step_middle_with run_middle.
  destruct (check_competition env (findUnique_competition st c)
              (count_registrations st c));
    [|repeat step_middle_with run_middle; reflexivity].
  step_middle_with run_middle.
  destruct (findUnique_userId_competitionId st u c);
    [repeat step_middle_with run_middle; reflexivity|].
  step_middle_with run_middle.
  destruct (create_registration env st u c key) as [[p|e] st'] eqn:Hcr.
  - step_middle_with run_middle.
    destruct (addConfirmationEmail q (reg_id (row p)) u c). reflexivity.
  - apply create_registration_throw in Hcr. subst.
    step_middle_with run_middle. reflexivity.
Qed.

(** In particular for a call that runs alone. *)
Lemma run_alone (env : Env) (st : Store) (q : Queue) (c u : Id)
    (key : option string) :
  run (repeat 0%nat 5) st q [call env c u key]
  = let '(res, st', q') := register env st q c u key in
    (st', q', [at_pc (call env c u key) (Returned res)]).
Proof. exact (run_call_to_its_end [] env st q c u key [] []). Qed.

(** The serial schedule is [register_each]. *)
Lemma run_serial (c : Id) (calls : list (Env * Id)) :
  forall (st : Store) (q : Queue) (pre : list Call),
  run (serial (List.length calls) (List.length pre)) st q
    (pre ++ calls_of c calls)
  = let '(ress, st', q') := register_each calls c st q in
    (st', q', (pre ++ returned_calls c calls ress)%list).
Proof.
  induction calls as [|[env u] rest IH]; intros st q pre.
  - reflexivity.
  - cbn [List.length serial calls_of map fst snd register_each].
    rewrite run_call_to_its_end.
    destruct (register env st q c u None) as [[res st'] q'].
    specialize (IH st' q'
                  (pre ++ [at_pc (call env c u None) (Returned res)])%list).
    rewrite length_app, Nat.add_1_r, <- app_assoc in IH. cbn [app] in IH.
    unfold calls_of in IH. rewrite IH.
    destruct (register_each rest c st' q') as [[ress st''] q''].
    rewrite <- app_assoc. reflexivity.
Qed.

Lemma check_competition_ok (env : Env) (comp : Competition) (k : Z) :
  comp_deletedAt comp = None ->
  now env <= regDeadline comp ->
  k < capacity comp ->
  check_competition env (Some comp) k = Ok comp.
Proof.
  intros Hd Ho Hk. unfold check_competition. rewrite Hd.
  destruct (Z.gtb_spec (now env) (regDeadline comp)); [lia|].
  destruct (Z.geb_spec k (capacity comp)); [lia | reflexivity].
Qed.

Lemma create_registration_admits (env : Env) (st : Store) (u c : Id)
    (comp : Competition) (usr : User) :
  findUnique_competition st c = Some comp ->
  findUnique_user st u = Some usr ->
  findUnique_userId_competitionId st u c = None ->
  create_registration env st u c None
  = (Ok {| row := new_registration env u c None;
           include_competition := Some comp; include_user := Some usr |},
     with_registrations st
       (registrations st ++ [new_registration env u c None])).
Proof.
  intros Hc Hu Hn. unfold create_registration.
  apply find_none_existsb in Hn.
  unfold findUnique_userId_competitionId in Hn. rewrite Hn, Hc, Hu.
  reflexivity.
Qed.

(** Two calls by distinct users for the last place of an open competition,
    their steps alternating: both read the count before either inserts, both
    pass the capacity check, both rows are inserted and both calls return
    their registration. *)
Lemma race_for_last_place (env1 env2 : Env) (st : Store) (q : Queue)
    (c u1 u2 : Id) (comp : Competition) (usr1 usr2 : User) :
  findUnique_competition st c = Some comp ->
  comp_deletedAt comp = None ->
  now env1 <= regDeadline comp ->
  now env2 <= regDeadline comp ->
  capacity comp = count_registrations st c + 1 ->
  u1 <> u2 ->
  findUnique_user st u1 = Some usr1 ->
  findUnique_user st u2 = Some usr2 ->
  findUnique_userId_competitionId st u1 c = None ->
  findUnique_userId_competitionId st u2 c = None ->
  exists q',
    run [0; 1; 0; 1; 0; 1; 0; 1; 0; 1]%nat st q
      [call env1 c u1 None; call env2 c u2 None]
    = (with_registrations st
         (registrations st ++ [new_registration env1 u1 c None;
                               new_registration env2 u2 c None]),
       q',
       [at_pc (call env1 c u1 None)
          (Returned (Ok {| row := new_registration env1 u1 c None;
                           include_competition := Some comp;
                           include_user := Some usr1 |}));
        at_pc (call env2 c u2 None)
          (Returned (Ok {| row := new_registration env2 u2 c None;
                           include_competition := Some comp;
                           include_user := Some usr2 |}))])
    /\ count_registrations
         (with_registrations st
            (registrations st ++ [new_registration env1 u1 c None;
                                  new_registration env2 u2 c None])) c
       = capacity comp + 1.
Proof.
  intros Hc Hd Ho1 Ho2 Hcap Hne Hf1 Hf2 Hn1 Hn2.
  exists (snd (addConfirmationEmail
                 (snd (addConfirmationEmail q (uuid env1) u1 c))
                 (uuid env2) u2 c)).
  split.
  - step_call. step_call.
    step_call. rewrite Hc, (check_competition_ok env1 comp _ Hd Ho1) by lia.
    step_call. rewrite Hc, (check_competition_ok env2 comp _ Hd Ho2) by lia.
    step_call. rewrite Hn1.
    step_call. rewrite Hn2.
    step_call.
    rewrite (create_registration_admits env1 st u1 c comp usr1 Hc Hf1 Hn1).
    step_call.
    rewrite (create_registration_admits env2
               (with_registrations st
                  (registrations st ++ [new_registration env1 u1 c None]))
               u2 c comp usr2 Hc Hf2).
    2:{ apply find_pair_insert_other; [exact Hne | exact Hn2]. }
    step_call. cbn [row reg_id new_registration].
    destruct (addConfirmationEmail q (uuid env1) u1 c) as [j1 q1].
    step_call. cbn [row reg_id new_registration snd].
    destruct (addConfirmationEmail q1 (uuid env2) u2 c) as [j2 q2].
    cbn [run snd].
    cbn [with_registrations registrations users competitions mailBox
         failedJob].
    rewrite <- app_assoc. reflexivity.
  - unfold count_registrations. simpl.
    rewrite filter_app, length_app. simpl.
    unfold on_competition at 2 3. simpl. rewrite String.eqb_refl. simpl.
    unfold count_registrations in Hcap. lia.
Qed.

(** C1 (the code at the failing input).  The competition has capacity 1 and
    no registration; users u1 and u2 call [register] at the same time and
    their steps alternate.  Both calls read a count of 0 before either
    inserts, both return a registration, and the competition ends with two
    registrations, the unique constraints being satisfied all the same.  Run
    one after the other, the same calls give one registration and one
    CapacityExceeded. *)
Theorem concurrent_admissions_exceed_capacity :
  let calls := [call (env_at 10 "r1") "c1" "u1" None;
                call (env_at 10 "r2") "c1" "u2" None] in
  let raced := run [0; 1; 0; 1; 0; 1; 0; 1; 0; 1]%nat (store0 1) queue0 calls in
  let in_turn := run (serial 2 0) (store0 1) queue0 calls in
  capacity (hackathon 1) = 1
  /\ map returned_ok (snd raced) = [true; true]
  /\ count_registrations (fst (fst raced)) "c1" = 2
  /\ constraints_hold (fst (fst raced)) = true
  /\ results (snd in_turn)
     = [Some (Ok {| row := registration_of "r1" "u1" None 10;
                    include_competition := Some (hackathon 1);
                    include_user := Some alice |});
        Some (Throw CapacityExceeded)]
  /\ count_registrations (fst (fst in_turn)) "c1" = 1.
Proof.
  repeat split.
Qed.

(** ** What [register] leaves alone *)

Lemma admission_ok_checked (env : Env) (st st' : Store) (u c : Id)
    (key : option string) (p : RegistrationPayload) :
  admission env u c key st = (Ok p, st') ->
  exists comp,
    findUnique_competition st c = Some comp
    /\ comp_deletedAt comp = None
    /\ now env <= regDeadline comp
    /\ count_registrations st c < capacity comp.
Proof.
  unfold admission, check_competition.
  destruct (findUnique_competition st c) as [comp|]; [|discriminate].
  destruct (comp_deletedAt comp) eqn:Hd; [discriminate|].
  destruct (Z.gtb_spec (now env) (regDeadline comp)); [discriminate|].
  destruct (Z.geb_spec (count_registrations st c) (capacity comp));
    [discriminate|].
  intros _. exists comp. repeat split; auto.
Qed.

Lemma register_ok_checked (env : Env) (st st' : Store) (q q' : Queue)
    (c u : Id) (key : option string) (p : RegistrationPayload) :
  idempotency_lookup st key = None ->
  register env st q c u key = (Ok p, st', q') ->
  admission env u c key st = (Ok p, st').
Proof.
  intros Hmiss. rewrite (register_no_hit env st q c u key Hmiss).
  destruct (admission env u c key st) as [[p1|e] s1];
    [intros [= <- <- _]; reflexivity | discriminate].
Qed.

(** X1.  [register] is append-only: it leaves users, competitions, mailbox
    and failed jobs as they are and keeps every registration in place; it
    adds at most one row, and only together with [Ok]: a row of the calling
    user for the competition asked, not deleted, which is the row returned. *)
Theorem register_append_only (env : Env) (st st' : Store) (q q' : Queue)
    (c u : Id) (key : option string) (res : result RegistrationPayload) :
  register env st q c u key = (res, st', q') ->
  users st' = users st
  /\ competitions st' = competitions st
  /\ mailBox st' = mailBox st
  /\ failedJob st' = failedJob st
  /\ exists added,
       registrations st' = (registrations st ++ added)%list
       /\ (List.length added <= 1)%nat
       /\ forall r, In r added ->
            userId r = u /\ competitionId r = c /\ idempotencyKey r = key
            /\ reg_deletedAt r = None
            /\ exists p, res = Ok p /\ row p = r.
Proof.
  intros H. apply register_store in H.
  destruct H as [[-> _]|(p & -> & -> & Hrow & _)].
  - do 4 (split; [reflexivity|]). exists [].
    rewrite app_nil_r. split; [reflexivity|]. split; [simpl; lia|].
    intros r [].
  - do 4 (split; [reflexivity|]). exists [row p].
    split; [reflexivity|]. split; [simpl; lia|].
    intros r [<-|[]]. rewrite Hrow. simpl.
    do 4 (split; [reflexivity|]). exists p. auto.
Qed.

Lemma register_append_only_witness :
  users (store_with 5 [registration_of "r1" "u1" None 10]) = users (store0 5)
  /\ competitions (store_with 5 [registration_of "r1" "u1" None 10])
     = competitions (store0 5).
Proof.
  destruct (register_append_only (env_at 10 "r1") (store0 5)
              (store_with 5 [registration_of "r1" "u1" None 10])
              queue0 (snd (addConfirmationEmail queue0 "r1" "u1" "c1"))
              "c1" "u1" None
              (Ok {| row := registration_of "r1" "u1" None 10;
                     include_competition := Some (hackathon 5);
                     include_user := Some alice |}) eq_refl)
    as (Hu & Hc & _).
  split; [exact Hu | exact Hc].
Defined.

Lemma count_registrations_insert_other (st : Store) (r : Registration)
    (c : Id) :
  competitionId r <> c ->
  count_registrations (with_registrations st (registrations st ++ [r])) c
  = count_registrations st c.
Proof.
  intros Hne. unfold count_registrations. simpl.
  rewrite filter_app, length_app. simpl.
  unfold on_competition at 2. apply String.eqb_neq in Hne. rewrite Hne.
  simpl. lia.
Qed.

(** X2.  Calls of [register] that run one at a time keep every competition
    within its capacity: a competition whose count does not exceed its
    capacity before the call is the same competition after it, and its
    count still does not exceed its capacity. *)
Theorem register_respects_capacity (env : Env) (st st' : Store) (q q' : Queue)
    (c u : Id) (key : option string) (res : result RegistrationPayload)
    (c' : Id) (comp : Competition) :
  register env st q c u key = (res, st', q') ->
  findUnique_competition st c' = Some comp ->
  count_registrations st c' <= capacity comp ->
  findUnique_competition st' c' = Some comp
  /\ count_registrations st c' <= count_registrations st' c'
  /\ count_registrations st' c' <= capacity comp.
Proof.
  intros Hreg Hc Hle.
  destruct (idempotency_lookup st key) as [existing|] eqn:Hhit.
  { unfold register in Hreg. rewrite Hhit in Hreg.
    injection Hreg as _ <- _. repeat split; auto; lia. }
  pose proof Hreg as Hst. apply register_store in Hst.
  destruct Hst as [[-> _]|(p & -> & -> & Hrow & _)];
    [repeat split; auto; lia|].
  split; [exact Hc|].
  apply (register_ok_checked env st _ q q' c u key p Hhit) in Hreg.
  apply admission_ok_checked in Hreg.
  destruct Hreg as (comp0 & Hc0 & _ & _ & Hroom).
  destruct (String.eqb_spec c c') as [<-|Hne].
  - assert (comp0 = comp) by congruence. subst comp0.
    assert (Hpc : competitionId (row p) = c) by (rewrite Hrow; reflexivity).
    pose proof (count_registrations_insert st (row p)) as Hcnt.
    rewrite Hpc in Hcnt. rewrite Hcnt. lia.
  - rewrite count_registrations_insert_other
      by (rewrite Hrow; simpl; exact Hne).
    lia.
Qed.

Lemma register_respects_capacity_witness :
  count_registrations (store_with 1 [registration_of "r1" "u1" None 10]) "c1"
  <= capacity (hackathon 1).
Proof.
  apply (register_respects_capacity (env_at 10 "r1") (store0 1)
           (store_with 1 [registration_of "r1" "u1" None 10])
           queue0 (snd (addConfirmationEmail queue0 "r1" "u1" "c1"))
           "c1" "u1" None
           (Ok {| row := registration_of "r1" "u1" None 10;
                  include_competition := Some (hackathon 1);
                  include_user := Some alice |})
           "c1" (hackathon 1)).
  - reflexivity.
  - reflexivity.
  - vm_compute. discriminate.
Defined.

Lemma register_each_fills_to_capacity_witness :
  exists ps,
    fst (fst (register_each
                [(env_at 10 "r1", "u1"); (env_at 20 "r2", "u2");
                 (env_at 30 "r3", "u3")] "c1" (store0 2) queue0))
    = (map Ok ps ++ [Throw CapacityExceeded])%list
    /\ List.length ps = 2%nat
    /\ count_registrations
         (snd (fst (register_each
                      [(env_at 10 "r1", "u1"); (env_at 20 "r2", "u2");
                       (env_at 30 "r3", "u3")] "c1" (store0 2) queue0))) "c1"
       = 2.
Proof.
  apply (register_each_fills_to_capacity
           [(env_at 10 "r1", "u1"); (env_at 20 "r2", "u2");
            (env_at 30 "r3", "u3")] "c1" (hackathon 2) (store0 2) queue0).
  - reflexivity.
  - reflexivity.
  - repeat constructor; simpl; lia.
  - repeat constructor; simpl; intuition discriminate.
  - repeat constructor; simpl; discriminate.
  - repeat constructor.
Defined.

Lemma register_twice_same_key_witness :
  register (env_at 20 "r2")
    (store_with 5 [registration_of "r1" "u1" (Some "k1") 10])
    (snd (addConfirmationEmail queue0 "r1" "u1" "c1")) "c1" "u1" (Some "k1")
  = (Ok (bare (registration_of "r1" "u1" (Some "k1") 10)),
     store_with 5 [registration_of "r1" "u1" (Some "k1") 10],
     snd (addConfirmationEmail queue0 "r1" "u1" "c1")).
Proof.
  apply (register_twice_same_key (env_at 10 "r1") (env_at 20 "r2") (store0 5)
           (store_with 5 [registration_of "r1" "u1" (Some "k1") 10])
           queue0 (snd (addConfirmationEmail queue0 "r1" "u1" "c1"))
           "c1" "u1" "k1"
           {| row := registration_of "r1" "u1" (Some "k1") 10;
              include_competition := Some (hackathon 5);
              include_user := Some alice |}).
  - discriminate.
  - reflexivity.
  - reflexivity.
Defined.

(** ** From a registration to its confirmation *)

Lemma find_registration_insert (st : Store) (r : Registration) :
  findUnique_registration st (reg_id r) = None ->
  findUnique_registration
    (with_registrations st (registrations st ++ [r])) (reg_id r) = Some r.
Proof.
  unfold findUnique_registration. simpl. intros H.
  rewrite (find_app_none _ _ _ H). simpl. rewrite String.eqb_refl.
  reflexivity.
Qed.

Lemma handleConfirmation_succeeds (env : Env) (st : Store) (job : Job)
    (r : Registration) (usr usr' : User) (comp : Competition) :
  findUnique_registration st (job_registrationId (data job)) = Some r ->
  findUnique_user st (userId r) = Some usr ->
  findUnique_competition st (competitionId r) = Some comp ->
  findUnique_user st (job_userId (data job)) = Some usr' ->
  handleConfirmation env st job
  = (Ok true,
     with_mailBox st
       (mailBox st ++
        [{| mail_id := uuid env; mail_userId := job_userId (data job);
            to := user_email usr; subject := confirmation_subject comp;
            body := confirmation_body usr comp; sentAt := now env;
            jobId := Some (job_id_string job) |}])).
Proof.
  intros Hr Hu Hc Hj. unfold handleConfirmation, send_confirmation.
  rewrite Hr, Hu, Hc, Hj. reflexivity.
Qed.

(** X5.  An admission that inserts its row while the queue can be reached
    leaves one more waiting job: the [sendConfirmation] job of the new
    registration, of the calling user and of the competition, with no
    attempt made.  When the id of the row is new, [handleConfirmation] run
    on this job and on the store the admission left succeeds: it adds one
    [MailBox] row, of the calling user, addressed to the email of that
    user, whose subject names the competition, and it records no failure. *)
Theorem registration_is_confirmed (env env' : Env) (st st' : Store)
    (q q' : Queue) (c u : Id) (key : option string) (p : RegistrationPayload) :
  idempotency_lookup st key = None ->
  redis_up q = true ->
  register env st q c u key = (Ok p, st', q') ->
  exists job usr comp,
    waiting q' = (waiting q ++ [job])%list
    /\ name job = "sendConfirmation"
    /\ data job = {| job_registrationId := reg_id (row p); job_userId := u;
                     job_competitionId := c; type := confirmation |}
    /\ attemptsMade job = 0%nat
    /\ findUnique_user st u = Some usr
    /\ findUnique_competition st c = Some comp
    /\ (findUnique_registration st (uuid env) = None ->
        exists m,
          handleConfirmation env' st' job
          = (Ok true, with_mailBox st' (mailBox st' ++ [m]))
          /\ mail_userId m = u
          /\ to m = user_email usr
          /\ subject m = "Registration Confirmed: " ++ title comp
          /\ failedJob (with_mailBox st' (mailBox st' ++ [m])) = failedJob st).
Proof.
  intros Hmiss Hup Hreg.
  pose proof (register_ok_checked env st st' q q' c u key p Hmiss Hreg) as Ha.
  apply admission_ok, create_registration_ok in Ha.
  destruct Ha as (Hrow & Hst & _ & _ & Hic & Hiu).
  rewrite (register_no_hit env st q c u key Hmiss) in Hreg.
  destruct (admission env u c key st) as [[p1|e] s1] eqn:Hadm;
    [|discriminate].
  injection Hreg as -> -> <-.
  apply admission_ok in Hadm. unfold create_registration in Hadm.
  destruct (_ || _) in Hadm; [discriminate|].
  destruct (findUnique_competition st c) as [comp|] eqn:Hc; [|discriminate].
  destruct (findUnique_user st u) as [usr|] eqn:Hu; [|discriminate].
  injection Hadm as Hp _.
  unfold addConfirmationEmail, add. rewrite Hup. simpl.
  eexists _, usr, comp.
  split; [reflexivity|]. do 5 (split; [reflexivity|]).
  intros Hfresh. subst st'.
  set (st1 := with_registrations st (registrations st ++ [row p])).
  assert (Hid : reg_id (row p) = uuid env) by (rewrite Hrow; reflexivity).
  rewrite <- Hid in Hfresh.
  pose proof (find_registration_insert st (row p) Hfresh) as Hfind.
  fold st1 in Hfind.
  eexists. split.
  - apply (handleConfirmation_succeeds env' st1 _ (row p) usr usr comp).
    + exact Hfind.
    + rewrite Hrow. exact Hu.
    + rewrite Hrow. exact Hc.
    + exact Hu.
  - repeat split.
Qed.

Lemma registration_is_confirmed_witness :
  exists job usr comp,
    waiting (snd (addConfirmationEmail queue0 "r1" "u1" "c1"))
    = (waiting queue0 ++ [job])%list
    /\ name job = "sendConfirmation"
    /\ data job = {| job_registrationId := "r1"; job_userId := "u1";
                     job_competitionId := "c1"; type := confirmation |}
    /\ attemptsMade job = 0%nat
    /\ findUnique_user (store0 5) "u1" = Some usr
    /\ findUnique_competition (store0 5) "c1" = Some comp
    /\ (findUnique_registration (store0 5) "r1" = None ->
        exists m,
          handleConfirmation (env_at 50 "m1")
            (store_with 5 [registration_of "r1" "u1" None 10]) job
          = (Ok true,
             with_mailBox (store_with 5 [registration_of "r1" "u1" None 10])
               [m])
          /\ mail_userId m = "u1"
          /\ to m = user_email usr
          /\ subject m = "Registration Confirmed: " ++ title comp
          /\ failedJob
               (with_mailBox (store_with 5 [registration_of "r1" "u1" None 10])
                  [m]) = []).
Proof.
  apply (registration_is_confirmed (env_at 10 "r1") (env_at 50 "m1")
           (store0 5) (store_with 5 [registration_of "r1" "u1" None 10])
           queue0 (snd (addConfirmationEmail queue0 "r1" "u1" "c1"))
           "c1" "u1" None
           {| row := registration_of "r1" "u1" None 10;
              include_competition := Some (hackathon 5);
              include_user := Some alice |}).
  - reflexivity.
  - reflexivity.
  - reflexivity.
Defined.

(** X6.  Whatever the job, [handleConfirmation] leaves users, competitions
    and registrations alone and writes exactly one row: a [MailBox] row
    carrying the job id when it returns, a [FailedJob] row when it throws,
    with the message of what was thrown and [job.attemptsMade]; never both.
    It throws 'Registration not found' exactly when the registration of the
    job is not in the store. *)
Theorem handleConfirmation_writes_one_row (env : Env) (st : Store) (job : Job) :
  let st' := snd (handleConfirmation env st job) in
  users st' = users st
  /\ competitions st' = competitions st
  /\ registrations st' = registrations st
  /\ match fst (handleConfirmation env st job) with
     | Ok b =>
         b = true
         /\ failedJob st' = failedJob st
         /\ exists m, mailBox st' = (mailBox st ++ [m])%list
                      /\ jobId m = Some (job_id_string job)
                      /\ mail_userId m = job_userId (data job)
     | Throw e =>
         mailBox st' = mailBox st
         /\ failedJob st'
            = (failedJob st ++
               [{| jobName := "sendConfirmation"; jobData := data job;
                   error := message_of e; fj_attempts := attemptsMade job;
                   failedAt := now env |}])%list
     end
  /\ (fst (handleConfirmation env st job)
      = Throw (JsError "Registration not found")
      <-> findUnique_registration st (job_registrationId (data job)) = None).
Proof.
  cbv zeta.
  destruct (handleConfirmation env st job) as [[b|e] st'] eqn:H; simpl.
  - pose proof H as Hok.
    apply handleConfirmation_ok, send_confirmation_ok in Hok.
    destruct Hok as (r & usr & comp & Hr & _ & _ & _ & -> & ->).
    repeat split; try reflexivity.
    + eexists. repeat split.
    + discriminate.
    + rewrite Hr. discriminate.
  - pose proof H as Hth. apply handleConfirmation_throw in Hth. subst st'.
    repeat split; try reflexivity.
    + intros [= ->]. unfold handleConfirmation, send_confirmation in H.
      destruct (findUnique_registration st (job_registrationId (data job)))
        as [r|]; [|reflexivity].
      destruct (findUnique_user st (userId r)),
               (findUnique_competition st (competitionId r));
        try discriminate.
      destruct (findUnique_user st (job_userId (data job))); discriminate.
    + intros Hnone. unfold handleConfirmation, send_confirmation in H.
      rewrite Hnone in H. injection H as <-. reflexivity.
Qed.

(** X7.  Jobs reach a handler by their name.  A job made by
    [addConfirmationEmail] is handled by [handleConfirmation].  A job made
    by [addReminderEmail] is named sendReminder, for which the processor
    registers no handler: it is never handled, and no [MailBox] row and no
    [FailedJob] row comes of it. *)
Theorem jobs_dispatch_by_name (env : Env) (st : Store) (q q' : Queue)
    (i u c : Id) (job : Job) :
  (addConfirmationEmail q i u c = (Ok job, q') ->
   dispatch env st job = handleConfirmation env st job)
  /\ (addReminderEmail q i u c = (Ok job, q') ->
      name job = "sendReminder"
      /\ type (data job) = reminder
      /\ exists e, dispatch env st job = (Throw e, st)).
Proof.
  unfold addConfirmationEmail, addReminderEmail, add.
  destruct (redis_up q); split; try discriminate.
  - intros [= <- _]. reflexivity.
  - intros [= <- _]. repeat split. eexists. reflexivity.
Qed.

Lemma jobs_dispatch_by_name_witness :
  exists e,
    dispatch (env_at 50 "m1") (store_with 5 [registration_of "r1" "u1" None 10])
      {| job_id := 1; name := "sendReminder";
         data := {| job_registrationId := "r1"; job_userId := "u1";
                    job_competitionId := "c1"; type := reminder |};
         opts := {| attempts := 3; backoff_type := exponential;
                    backoff_delay := 2000; removeOnComplete := false;
                    removeOnFail := false |};
         attemptsMade := 0 |}
    = (Throw e, store_with 5 [registration_of "r1" "u1" None 10]).
Proof.
  destruct (jobs_dispatch_by_name (env_at 50 "m1")
              (store_with 5 [registration_of "r1" "u1" None 10])
              queue0 (snd (addReminderEmail queue0 "r1" "u1" "c1"))
              "r1" "u1" "c1"
              {| job_id := 1; name := "sendReminder";
                 data := {| job_registrationId := "r1"; job_userId := "u1";
                            job_competitionId := "c1"; type := reminder |};
                 opts := {| attempts := 3; backoff_type := exponential;
                            backoff_delay := 2000; removeOnComplete := false;
                            removeOnFail := false |};
                 attemptsMade := 0 |}) as (_ & H).
  destruct (H eq_refl) as (_ & _ & He). exact He.
Defined.

(** ** Listings *)

Lemma insert_desc_perm {A : Type} (key : A -> Z) (x : A) (l : list A) :
  Permutation (insert_desc key x l) (x :: l).
Proof.
  induction l as [|y l IH]; simpl; [apply Permutation_refl|].
  destruct (key y <=? key x); [apply Permutation_refl|].
  apply perm_trans with (y :: x :: l); [|apply perm_swap].
  apply perm_skip. exact IH.
Qed.

Lemma sort_desc_perm {A : Type} (key : A -> Z) (l : list A) :
  Permutation (sort_desc key l) l.
Proof.
  induction l as [|x l IH]; simpl; [apply perm_nil|].
  apply perm_trans with (x :: sort_desc key l);
    [apply insert_desc_perm | apply perm_skip; exact IH].
Qed.

Lemma insert_desc_sorted {A : Type} (key : A -> Z) (x : A) (l : list A) :
  StronglySorted (fun a b => key a >= key b) l ->
  StronglySorted (fun a b => key a >= key b) (insert_desc key x l).
Proof.
  induction l as [|y l IH]; simpl; intros Hs.
  - constructor; constructor.
  - inversion Hs as [|? ? Hl Hy]; subst.
    destruct (Z.leb_spec (key y) (key x)) as [Hle|Hgt].
    + constructor; [exact Hs|]. constructor; [lia|].
      eapply Forall_impl; [|exact Hy]. simpl. intros; lia.
    + constructor; [apply IH; exact Hl|].
      apply (Permutation_Forall (Permutation_sym (insert_desc_perm key x l))).
      constructor; [lia | exact Hy].
Qed.

Lemma sort_desc_sorted {A : Type} (key : A -> Z) (l : list A) :
  StronglySorted (fun a b => key a >= key b) (sort_desc key l).
Proof.
  induction l as [|x l IH]; simpl; [constructor|].
  apply insert_desc_sorted. exact IH.
Qed.

Lemma sort_desc_In {A : Type} (key : A -> Z) (l : list A) (x : A) :
  In x (sort_desc key l) <-> In x l.
Proof.
  split; apply Permutation_in;
    [apply sort_desc_perm | apply Permutation_sym, sort_desc_perm].
Qed.

Lemma findUnique_competition_store_of (db : Db) (i : Id) :
  findUnique_competition (store_of db) i
  = option_map competition (find_competition_row db i).
Proof.
  unfold findUnique_competition, find_competition_row, store_of. simpl.
  induction (competition_rows db) as [|r rows IH]; simpl; [reflexivity|].
  unfold row_id at 1. destruct (String.eqb (comp_id (competition r)) i);
    [reflexivity | exact IH].
Qed.

Lemma findUnique_user_store_of (db : Db) (i : Id) :
  findUnique_user (store_of db) i = option_map account (find_user_row db i).
Proof.
  unfold findUnique_user, find_user_row, store_of. simpl.
  induction (user_rows db) as [|r rows IH]; simpl; [reflexivity|].
  destruct (String.eqb (user_id (account r)) i); [reflexivity | exact IH].
Qed.

Lemma findAll_rows (db : Db) :
  map view_row (findAll db)
  = sort_desc createdAt (filter not_deleted (competition_rows db)).
Proof. unfold findAll. rewrite map_map. simpl. apply map_id. Qed.

(** X8.  [findAll] lists each competition that is not soft-deleted once and
    no other, the most recently created first, each with its organizer and
    with the number of registrations that refer to it. *)
Theorem findAll_lists_live_competitions (db : Db) :
  Permutation (map view_row (findAll db))
              (filter not_deleted (competition_rows db))
  /\ StronglySorted (fun a b => createdAt a >= createdAt b)
                    (map view_row (findAll db))
  /\ (forall r, In r (map view_row (findAll db)) <->
                In r (competition_rows db)
                /\ comp_deletedAt (competition r) = None)
  /\ Forall (fun v =>
               view_count v
               = Some (count_registrations (store_of db) (row_id (view_row v)))
               /\ view_organizer v = find_user_row db (createdById (view_row v))
               /\ view_registrations v = None)
            (findAll db).
Proof.
  rewrite findAll_rows.
  split; [apply sort_desc_perm|].
  split; [apply sort_desc_sorted|].
  split.
  - intros r. rewrite sort_desc_In, filter_In. unfold not_deleted.
    destruct (comp_deletedAt (competition r)); intuition discriminate.
  - unfold findAll. apply Forall_forall. intros v Hv.
    apply in_map_iff in Hv. destruct Hv as (r & <- & _). simpl. auto.
Qed.

Lemma find_competition_row_id (db : Db) (i : Id) (r : CompetitionRow) :
  find_competition_row db i = Some r -> row_id r = i /\ In r (competition_rows db).
Proof.
  unfold find_competition_row. intros H. apply find_some in H.
  destruct H as [Hin Heq]. apply String.eqb_eq in Heq. auto.
Qed.

(** X9.  [findOne] throws NotFound when no competition has the id or the
    one that has it is soft-deleted, and nothing else; this is exactly when
    [register] throws NotFound for the id.  Otherwise it returns the
    competition of that id with every registration that refers to it, and
    [_count.registrations] is the number of registrations listed. *)
Theorem findOne_found_or_not (db : Db) (i : Id) :
  match findOne db i with
  | Throw e =>
      e = NotFound
      /\ (find_competition_row db i = None
          \/ exists r, find_competition_row db i = Some r
                       /\ comp_deletedAt (competition r) <> None)
      /\ forall env q u,
           register env (store_of db) q i u None
           = (Throw NotFound, store_of db, q)
  | Ok v =>
      find_competition_row db i = Some (view_row v)
      /\ row_id (view_row v) = i
      /\ comp_deletedAt (competition (view_row v)) = None
      /\ (exists ps,
            view_registrations v = Some ps
            /\ map participant_row ps
               = filter (on_competition i) (registration_rows db)
            /\ view_count v = Some (Z.of_nat (List.length ps))
            /\ Forall (fun p => competitionId (participant_row p) = i) ps)
      /\ forall env q u,
           fst (fst (register env (store_of db) q i u None)) <> Throw NotFound
  end.
Proof.
  unfold findOne.
  destruct (find_competition_row db i) as [r|] eqn:Hf.
  - destruct (find_competition_row_id db i r Hf) as [Hid _].
    unfold not_deleted.
    destruct (comp_deletedAt (competition r)) as [d|] eqn:Hd.
    + split; [reflexivity|]. split.
      * right. exists r. split; [reflexivity|]. rewrite Hd. discriminate.
      * intros env q u.
        rewrite (register_no_hit env (store_of db) q i u None eq_refl).
        unfold admission, check_competition.
        rewrite findUnique_competition_store_of, Hf. simpl. rewrite Hd.
        reflexivity.
    + simpl. repeat split; auto.
      * eexists. split; [reflexivity|]. rewrite map_map. simpl.
        rewrite map_id, length_map. repeat split.
        apply Forall_forall. intros p Hp. apply in_map_iff in Hp.
        destruct Hp as (x & <- & Hx). apply filter_In in Hx.
        destruct Hx as [_ Hx]. apply String.eqb_eq in Hx. exact Hx.
      * intros env q u.
        rewrite (register_no_hit env (store_of db) q i u None eq_refl).
        unfold admission, check_competition.
        rewrite findUnique_competition_store_of, Hf. simpl. rewrite Hd.
        destruct (now env >? regDeadline (competition r)); [discriminate|].
        destruct (_ >=? _); [discriminate|].
        destruct (findUnique_userId_competitionId (store_of db) u i);
          [discriminate|].
        destruct (create_registration env (store_of db) u i None)
          as [[p|e] s] eqn:Hcr; simpl; [discriminate|].
        unfold create_registration in Hcr.
        destruct (_ || _) in Hcr; [injection Hcr as <- _; discriminate|].
        rewrite findUnique_competition_store_of, Hf in Hcr. simpl in Hcr.
        destruct (findUnique_user (store_of db) u);
          [discriminate | injection Hcr as <- _; discriminate].
  - split; [reflexivity|]. split; [left; reflexivity|].
    intros env q u.
    rewrite (register_no_hit env (store_of db) q i u None eq_refl).
    unfold admission, check_competition.
    rewrite findUnique_competition_store_of, Hf. reflexivity.
Qed.

(** ** Creating a competition *)

Lemma find_competition_row_insert (db : Db) (row : CompetitionRow) :
  find_competition_row db (row_id row) = None ->
  find_competition_row
    (with_competition_rows db (competition_rows db ++ [row])) (row_id row)
  = Some row.
Proof.
  unfold find_competition_row. simpl. intros H.
  rewrite (find_app_none _ _ _ H). simpl. rewrite String.eqb_refl.
  reflexivity.
Qed.



Lemma count_zero_no_pair (st : Store) (u c : Id) :
  count_registrations st c = 0 ->
  findUnique_userId_competitionId st u c = None.
Proof.
  unfold count_registrations, findUnique_userId_competitionId.
  induction (registrations st) as [|r rs IH]; simpl; [reflexivity|].
  unfold same_pair, on_competition in *.
  destruct (String.eqb (competitionId r) c); simpl.
  - lia.
  - rewrite andb_false_r. exact IH.
Qed.

(** X11.  Right after [create], on a new id, a user who calls [register]
    for the new competition is refused with DeadlineExceeded when the
    deadline of the request is already past, else with CapacityExceeded
    when the capacity of the request is zero or negative, and is admitted
    otherwise: a competition created with a capacity below one never admits
    anybody. *)
Theorem create_then_register (env env' : Env) (db db' : Db) (q : Queue)
    (dto : CreateCompetitionDto) (organizerId u : Id) (view : CompetitionView)
    (usr : User) :
  create env db dto organizerId = (Ok view, db') ->
  find_competition_row db (uuid env) = None ->
  count_registrations (store_of db) (uuid env) = 0 ->
  findUnique_user (store_of db) u = Some usr ->
  register_in env' db' q (uuid env) u None
  = if now env' >? dto_regDeadline dto then (Throw DeadlineExceeded, db', q)
    else if dto_capacity dto <=? 0 then (Throw CapacityExceeded, db', q)
    else
      (Ok {| row := new_registration env' u (uuid env) None;
             include_competition := Some (competition (view_row view));
             include_user := Some usr |},
       with_registration_rows db'
         (registration_rows db' ++ [new_registration env' u (uuid env) None]),
       snd (addConfirmationEmail q (uuid env') u (uuid env))).
Proof.
  unfold create. intros Hc Hfresh Hzero Hu.
  destruct (dto_description dto) as [text|]; [|discriminate].
  destruct (find_user_row db organizerId) as [org|]; [|discriminate].
  destruct (fits_Int (dto_capacity dto)); [|discriminate].
  injection Hc as <- <-. cbn [view_row].
  set (row := {| competition := _; description := _; tags := _;
                 createdById := _; createdAt := _ |}).
  set (db' := with_competition_rows db (competition_rows db ++ [row])).
  assert (Hid : row_id row = uuid env) by reflexivity.
  rewrite <- Hid in Hfresh.
  pose proof (find_competition_row_insert db row Hfresh) as Hfind.
  fold db' in Hfind. rewrite Hid in Hfind.
  assert (Hcomp : findUnique_competition (store_of db') (uuid env)
                  = Some (competition row)).
  { rewrite findUnique_competition_store_of, Hfind. reflexivity. }
  assert (Hcount : count_registrations (store_of db') (uuid env) = 0)
    by exact Hzero.
  assert (Hu' : findUnique_user (store_of db') u = Some usr) by exact Hu.
  unfold register_in.
  rewrite (register_no_hit env' (store_of db') q (uuid env) u None eq_refl).
  unfold admission, check_competition. rewrite Hcomp, Hcount.
  cbn [row competition comp_deletedAt regDeadline capacity].
  destruct (now env' >? dto_regDeadline dto); [reflexivity|].
  replace (0 >=? dto_capacity dto) with (dto_capacity dto <=? 0)
    by (rewrite Z.geb_leb; reflexivity).
  destruct (dto_capacity dto <=? 0); [reflexivity|].
  pose proof (count_zero_no_pair (store_of db') u (uuid env) Hcount) as Hpair.
  rewrite Hpair.
  rewrite (create_registration_admits env' (store_of db') u (uuid env)
             (competition row) usr Hcomp Hu' Hpair).
  reflexivity.
Qed.

Lemma create_then_register_witness :
  fst (fst (register_in (env_at 200 "r9")
              (snd (create (env_at 100 "c2") (db0 5 [])
                      {| dto_title := "Closed shop"; dto_description := Some "";
                         dto_tags := None; dto_capacity := 0;
                         dto_regDeadline := 5000; dto_startDate := None |}
                      "u1"))
              queue0 "c2" "u2" None))
  = Throw CapacityExceeded.
Proof.
  exact (f_equal (fun x => fst (fst x))
    (create_then_register (env_at 100 "c2") (env_at 200 "r9") (db0 5 [])
       (snd (create (env_at 100 "c2") (db0 5 [])
               {| dto_title := "Closed shop"; dto_description := Some "";
                  dto_tags := None; dto_capacity := 0;
                  dto_regDeadline := 5000; dto_startDate := None |}
               "u1"))
       queue0
       {| dto_title := "Closed shop"; dto_description := Some "";
          dto_tags := None; dto_capacity := 0;
          dto_regDeadline := 5000; dto_startDate := None |}
       "u1" "u2"
       {| view_row :=
            {| competition :=
                 {| comp_id := "c2"; title := "Closed shop";
                    capacity := 0; regDeadline := 5000;
                    startDate := None; comp_deletedAt := None |};
               description := ""; tags := []; createdById := "u1";
               createdAt := 100 |};
          view_organizer := Some alice_row;
          view_registrations := None; view_count := None |}
       charlie eq_refl eq_refl eq_refl eq_refl)).
Defined.

(** ** Updating a competition *)

Lemma patch_keeps (dto : UpdateCompetitionDto) (r : CompetitionRow) :
  row_id (patch dto r) = row_id r
  /\ createdById (patch dto r) = createdById r
  /\ createdAt (patch dto r) = createdAt r
  /\ startDate (competition (patch dto r)) = startDate (competition r)
  /\ comp_deletedAt (competition (patch dto r))
     = comp_deletedAt (competition r).
Proof. repeat split. Qed.


Lemma find_update_row (i j : Id) (f : CompetitionRow -> CompetitionRow)
    (rows : list CompetitionRow) :
  (forall r, row_id (f r) = row_id r) ->
  find (fun r => String.eqb (row_id r) j) (update_row i f rows)
  = if String.eqb i j
    then option_map f (find (fun r => String.eqb (row_id r) j) rows)
    else find (fun r => String.eqb (row_id r) j) rows.
Proof.
  intros Hf. induction rows as [|r rows IH]; simpl.
  - destruct (String.eqb i j); reflexivity.
  - destruct (String.eqb_spec (row_id r) i) as [Hri|Hri]; simpl.
    + rewrite Hf, Hri. destruct (String.eqb_spec i j); reflexivity.
    + destruct (String.eqb_spec (row_id r) j) as [Hrj|Hrj].
      * destruct (String.eqb_spec i j); [congruence | reflexivity].
      * exact IH.
Qed.


(** A capacity of 2147483648 from the creator is refused and nothing is
    written; the two checks before it come first. *)
Example update_out_of_range_refused :
  let db := db0 5 [] in
  let too_many :=
    {| upd_title := None; upd_description := None; upd_tags := None;
       upd_capacity := Some 2147483648; upd_regDeadline := None |} in
  update db "c1" too_many "u1" = (Raise (Thrown P2020), db)
  /\ update db "c1" too_many "u2"
     = (Raise (ForbiddenException "You can only update your own competitions"),
        db)
  /\ update db "c7" too_many "u1" = (Raise (Thrown NotFound), db).
Proof. repeat split. Qed.

(** X13.  What an update by the creator stores, when it goes through: a
    capacity of 0, an empty title and an empty description are taken for
    absent and leave the column as it was, while any other capacity,
    negative ones included, and an empty list of tags are stored. *)
Theorem update_skips_falsy_fields (db db' : Db) (i : Id)
    (dto : UpdateCompetitionDto) (u : Id) (v : CompetitionView) :
  update db i dto u = (Done v, db') ->
  exists old new,
    find_competition_row db i = Some old
    /\ find_competition_row db' i = Some new
    /\ view_row v = new
    /\ (upd_capacity dto = Some 0 ->
        capacity (competition new) = capacity (competition old))
    /\ (forall n, upd_capacity dto = Some n -> n <> 0 ->
        capacity (competition new) = n)
    /\ (upd_title dto = Some "" ->
        title (competition new) = title (competition old))
    /\ (upd_description dto = Some "" -> description new = description old)
    /\ (upd_tags dto = Some [] -> tags new = [])
    /\ (upd_capacity dto = None ->
        capacity (competition new) = capacity (competition old)).
Proof.
  intros H.
  unfold update in H.
  destruct (find_competition_row db i) as [r|] eqn:Hf; [|discriminate].
  destruct (negb (String.eqb (createdById r) u)); [discriminate|].
  destruct (sets_capacity_out_of_range dto); [discriminate|].
  injection H as <- <-. exists r, (patch dto r).
  split; [reflexivity|]. split.
  { unfold find_competition_row in *. simpl.
    rewrite (find_update_row i i (patch dto) _ (fun _ => eq_refl)),
      String.eqb_refl, Hf. reflexivity. }
  split; [reflexivity|]. simpl.
  repeat split.
  - intros ->. reflexivity.
  - intros n -> Hn. unfold truthy_number.
    apply Z.eqb_neq in Hn. rewrite Hn. reflexivity.
  - intros ->. reflexivity.
  - intros ->. reflexivity.
  - intros ->. reflexivity.
  - intros ->. reflexivity.
Qed.

Lemma update_skips_falsy_fields_witness :
  exists old new,
    find_competition_row (db0 5 []) "c1" = Some old
    /\ find_competition_row
         (snd (update (db0 5 []) "c1"
                 {| upd_title := Some ""; upd_description := None;
                    upd_tags := Some []; upd_capacity := Some 0;
                    upd_regDeadline := None |} "u1")) "c1" = Some new
    /\ capacity (competition new) = capacity (competition old)
    /\ title (competition new) = title (competition old)
    /\ tags new = [].
Proof.
  destruct (update_skips_falsy_fields (db0 5 [])
              (snd (update (db0 5 []) "c1"
                      {| upd_title := Some ""; upd_description := None;
                         upd_tags := Some []; upd_capacity := Some 0;
                         upd_regDeadline := None |} "u1"))
              "c1"
              {| upd_title := Some ""; upd_description := None;
                 upd_tags := Some []; upd_capacity := Some 0;
                 upd_regDeadline := None |}
              "u1"
              {| view_row :=
                   {| competition := hackathon 5;
                      description := "Build the next big thing";
                      tags := []; createdById := "u1"; createdAt := 1 |};
                 view_organizer := Some alice_row;
                 view_registrations := None; view_count := None |}
              eq_refl)
    as (old & new & Ho & Hn & _ & Hcap & _ & Ht & _ & Htags & _).
  exists old, new. repeat split; auto.
Defined.

(** X14.  [update] does not look at the registrations: when the creator
    sets a capacity that the count has already reached or passed, every
    registration stays, the count is then at or above the capacity, and
    every later call of [register] for the competition, while it is open
    and not deleted, is refused with CapacityExceeded. *)
Theorem update_below_count_closes (env : Env) (db db' : Db) (q : Queue)
    (i : Id) (dto : UpdateCompetitionDto) (u u' : Id) (v : CompetitionView)
    (n : Z) :
  update db i dto u = (Done v, db') ->
  upd_capacity dto = Some n ->
  n <> 0 ->
  n <= count_registrations (store_of db) i ->
  comp_deletedAt (competition (view_row v)) = None ->
  now env <= regDeadline (competition (view_row v)) ->
  registration_rows db' = registration_rows db
  /\ capacity (competition (view_row v)) = n
  /\ capacity (competition (view_row v)) <= count_registrations (store_of db') i
  /\ register_in env db' q i u' None = (Throw CapacityExceeded, db', q).
Proof.
  intros H Hcap Hn Hle Hd Hopen.
  unfold update in H.
  destruct (find_competition_row db i) as [r|] eqn:Hf; [|discriminate].
  destruct (negb (String.eqb (createdById r) u)); [discriminate|].
  destruct (sets_capacity_out_of_range dto); [discriminate|].
  injection H as <- <-. cbn [view_row] in *.
  set (db' := with_competition_rows db
                (update_row i (patch dto) (competition_rows db))).
  assert (Hnew : capacity (competition (patch dto r)) = n).
  { simpl. rewrite Hcap. unfold truthy_number.
    apply Z.eqb_neq in Hn. rewrite Hn. reflexivity. }
  assert (Hfind : findUnique_competition (store_of db') i
                  = Some (competition (patch dto r))).
  { rewrite findUnique_competition_store_of. unfold find_competition_row in *.
    simpl.
    rewrite (find_update_row i i (patch dto) _ (fun _ => eq_refl)),
      String.eqb_refl, Hf. reflexivity. }
  assert (Hcount : count_registrations (store_of db') i
                   = count_registrations (store_of db) i) by reflexivity.
  split; [reflexivity|]. split; [exact Hnew|].
  split; [rewrite Hnew, Hcount; exact Hle|].
  unfold register_in.
  rewrite (register_full env (store_of db') q i u' (competition (patch dto r))
             Hfind Hd Hopen) by (rewrite Hnew, Hcount; exact Hle).
  reflexivity.
Qed.

Lemma update_below_count_closes_witness :
  register_in (env_at 30 "r9")
    (snd (update (db0 5 [registration_of "r1" "u1" None 10;
                         registration_of "r2" "u2" None 20]) "c1"
            {| upd_title := None; upd_description := None; upd_tags := None;
               upd_capacity := Some 1; upd_regDeadline := None |} "u1"))
    queue0 "c1" "u3" None
  = (Throw CapacityExceeded,
     snd (update (db0 5 [registration_of "r1" "u1" None 10;
                         registration_of "r2" "u2" None 20]) "c1"
            {| upd_title := None; upd_description := None; upd_tags := None;
               upd_capacity := Some 1; upd_regDeadline := None |} "u1"),
     queue0).
Proof.
  apply (update_below_count_closes (env_at 30 "r9")
           (db0 5 [registration_of "r1" "u1" None 10;
                   registration_of "r2" "u2" None 20])
           (snd (update (db0 5 [registration_of "r1" "u1" None 10;
                                registration_of "r2" "u2" None 20]) "c1"
                   {| upd_title := None; upd_description := None;
                      upd_tags := None; upd_capacity := Some 1;
                      upd_regDeadline := None |} "u1"))
           queue0 "c1"
           {| upd_title := None; upd_description := None; upd_tags := None;
              upd_capacity := Some 1; upd_regDeadline := None |}
           "u1" "u3"
           {| view_row :=
                {| competition := hackathon 1;
                   description := "Build the next big thing";
                   tags := ["coding"; "hackathon"]; createdById := "u1";
                   createdAt := 1 |};
              view_organizer := Some alice_row;
              view_registrations := None; view_count := None |}
           1).
  - reflexivity.
  - reflexivity.
  - discriminate.
  - vm_compute. discriminate.
  - reflexivity.
  - simpl. lia.
Defined.

(** ** The lists of registrations *)

Lemma getMyRegistrations_rows (db : Db) (u : Id) :
  map my_row (getMyRegistrations db u)
  = sort_desc registeredAt
      (filter (fun r => String.eqb (userId r) u && active r)
              (registration_rows db)).
Proof. unfold getMyRegistrations. rewrite map_map. simpl. apply map_id. Qed.

Lemma active_iff (r : Registration) :
  active r = true <-> reg_deletedAt r = None.
Proof.
  unfold active. destruct (reg_deletedAt r); split;
    intros; congruence.
Qed.

(** X15.  [getMyRegistrations] lists the registrations of the user that are
    not soft-deleted, each once, and no other, the latest first, each with
    the competition it refers to, be that competition soft-deleted or
    not. *)
Theorem getMyRegistrations_lists_own (db : Db) (u : Id) :
  Permutation (map my_row (getMyRegistrations db u))
              (filter (fun r => String.eqb (userId r) u && active r)
                      (registration_rows db))
  /\ StronglySorted (fun a b => registeredAt a >= registeredAt b)
                    (map my_row (getMyRegistrations db u))
  /\ (forall r, In r (map my_row (getMyRegistrations db u)) <->
                In r (registration_rows db) /\ userId r = u
                /\ reg_deletedAt r = None)
  /\ Forall (fun m =>
               my_competition m
               = find_competition_row db (competitionId (my_row m)))
            (getMyRegistrations db u).
Proof.
  rewrite getMyRegistrations_rows.
  split; [apply sort_desc_perm|].
  split; [apply sort_desc_sorted|].
  split.
  - intros r. rewrite sort_desc_In, filter_In, andb_true_iff, String.eqb_eq,
      active_iff. tauto.
  - unfold getMyRegistrations. apply Forall_forall. intros m Hm.
    apply in_map_iff in Hm. destruct Hm as (r & <- & _). reflexivity.
Qed.

Lemma register_in_store (env : Env) (db db' : Db) (q q' : Queue) (c u : Id)
    (key : option string) (res : result RegistrationPayload) :
  register_in env db q c u key = (res, db', q') ->
  register env (store_of db) q c u key = (res, store_of db', q')
  /\ user_rows db' = user_rows db
  /\ competition_rows db' = competition_rows db.
Proof.
  unfold register_in.
  destruct (register env (store_of db) q c u key) as [[r st'] q1] eqn:H.
  intros [= <- <- <-].
  destruct (register_store env (store_of db) q c u key r st' q1 H)
    as [[-> _]|(p & _ & -> & _)]; repeat split.
Qed.

(** X16.  What [getParticipants] answers: NotFound when no competition has
    the id, Forbidden to anybody but the creator of the competition, and
    to the creator the registrations of the competition that are not
    soft-deleted, each once, the latest first, each with its user.  It
    does not look at the deletion mark of the competition: the creator
    still gets the list of a competition that [findOne] no longer finds. *)
Theorem getParticipants_for_creator (db : Db) (c u : Id) :
  match getParticipants db c u with
  | Raise e =>
      (find_competition_row db c = None /\ e = Thrown NotFound)
      \/ (exists r,
            find_competition_row db c = Some r
            /\ createdById r <> u
            /\ e = ForbiddenException
                     "Only the organizer can view participants")
  | Done ps =>
      (exists r, find_competition_row db c = Some r /\ createdById r = u)
      /\ Permutation (map participant_row ps)
           (filter (fun r => on_competition c r && active r)
                   (registration_rows db))
      /\ StronglySorted (fun a b => registeredAt a >= registeredAt b)
           (map participant_row ps)
      /\ (forall r, In r (map participant_row ps) <->
                    In r (registration_rows db) /\ competitionId r = c
                    /\ reg_deletedAt r = None)
      /\ Forall (fun p =>
                   participant_user p
                   = findUnique_user (store_of db) (userId (participant_row p)))
                ps
  end
  /\ (forall r,
        find_competition_row db c = Some r ->
        createdById r = u ->
        comp_deletedAt (competition r) <> None ->
        findOne db c = Throw NotFound
        /\ exists ps, getParticipants db c u = Done ps).
Proof.
  split.
  - unfold getParticipants.
    destruct (find_competition_row db c) as [r|] eqn:Hf; [|auto].
    destruct (String.eqb_spec (createdById r) u) as [Hu|Hu]; simpl.
    + split; [exists r; auto|].
      rewrite map_map. simpl. rewrite map_id.
      split; [apply sort_desc_perm|].
      split; [apply sort_desc_sorted|].
      split.
      * intros x. rewrite sort_desc_In, filter_In, andb_true_iff, active_iff.
        unfold on_competition. rewrite String.eqb_eq. tauto.
      * apply Forall_forall. intros p Hp. apply in_map_iff in Hp.
        destruct Hp as (x & <- & _). reflexivity.
    + right. exists r. auto.
  - intros r Hf Hu Hd. unfold findOne, getParticipants. rewrite Hf.
    unfold not_deleted.
    destruct (comp_deletedAt (competition r)); [|congruence].
    split; [reflexivity|].
    apply String.eqb_eq in Hu. rewrite Hu. simpl. eexists. reflexivity.
Qed.

Lemma sort_desc_map_In {A B : Type} (key : A -> Z) (f : A -> B) (l : list A)
    (x : A) :
  In x l -> In (f x) (map f (sort_desc key l)).
Proof. intros H. apply in_map. apply sort_desc_In. exact H. Qed.

(** X17.  A registration that [register] has just inserted is listed: the
    user finds it with [getMyRegistrations], and the creator of the
    competition finds it, with the user, with [getParticipants]. *)
Theorem registration_is_listed (env : Env) (db db' : Db) (q q' : Queue)
    (c u : Id) (key : option string) (p : RegistrationPayload)
    (r : CompetitionRow) :
  idempotency_lookup (store_of db) key = None ->
  register_in env db q c u key = (Ok p, db', q') ->
  find_competition_row db c = Some r ->
  In (row p) (map my_row (getMyRegistrations db' u))
  /\ exists ps,
       getParticipants db' c (createdById r) = Done ps
       /\ In {| participant_row := row p; participant_user := include_user p |}
             ps.
Proof.
  intros Hmiss Hreg Hf.
  destruct (register_in_store env db db' q q' c u key (Ok p) Hreg)
    as (Hst & Husers & Hcomps).
  pose proof (register_ok_checked env (store_of db) (store_of db') q q' c u
                key p Hmiss Hst) as Ha.
  apply admission_ok, create_registration_ok in Ha.
  destruct Ha as (Hrow & Hst' & _ & _ & _ & Hiu).
  assert (Hin : In (row p) (registration_rows db')).
  { change (registration_rows db') with (registrations (store_of db')).
    rewrite Hst'. simpl. apply in_or_app. right. simpl. auto. }
  split.
  - rewrite getMyRegistrations_rows. apply sort_desc_In, filter_In.
    split; [exact Hin|]. rewrite Hrow. simpl. rewrite String.eqb_refl.
    reflexivity.
  - unfold getParticipants, find_competition_row in *. rewrite Hcomps, Hf.
    rewrite String.eqb_refl. simpl. eexists. split; [reflexivity|].
    replace {| participant_row := row p; participant_user := include_user p |}
      with (with_user db' (row p)).
    + apply sort_desc_map_In. apply filter_In. split; [exact Hin|].
      rewrite Hrow. unfold on_competition. simpl. rewrite String.eqb_refl.
      reflexivity.
    + unfold with_user. f_equal. rewrite Hiu.
      unfold findUnique_user, store_of. simpl. rewrite Husers, Hrow.
      reflexivity.
Qed.

Lemma registration_is_listed_witness :
  In (registration_of "r1" "u2" None 10)
     (map my_row
        (getMyRegistrations (db0 5 [registration_of "r1" "u2" None 10]) "u2"))
  /\ exists ps,
       getParticipants (db0 5 [registration_of "r1" "u2" None 10]) "c1" "u1"
       = Done ps
       /\ In {| participant_row := registration_of "r1" "u2" None 10;
                participant_user := Some charlie |} ps.
Proof.
  apply (registration_is_listed (env_at 10 "r1") (db0 5 [])
           (db0 5 [registration_of "r1" "u2" None 10])
           queue0 (snd (addConfirmationEmail queue0 "r1" "u2" "c1"))
           "c1" "u2" None
           {| row := registration_of "r1" "u2" None 10;
              include_competition := Some (hackathon 5);
              include_user := Some charlie |}
           (hackathon_row 5)).
  - reflexivity.
  - reflexivity.
  - reflexivity.
Defined.

(** ** The register button of the page *)

Lemma findOne_ok (db : Db) (i : Id) (v : CompetitionView) :
  findOne db i = Ok v ->
  find_competition_row db i = Some (view_row v)
  /\ comp_deletedAt (competition (view_row v)) = None
  /\ view_count v = Some (count_registrations (store_of db) i).
Proof.
  unfold findOne.
  destruct (find_competition_row db i) as [r|]; [|discriminate].
  unfold not_deleted.
  destruct (comp_deletedAt (competition r)) eqn:Hd; [discriminate|].
  intros [= <-]. simpl. auto.
Qed.

(** X18.  On the competition that [findOne] returns, and at one and the
    same instant, the page enables the register button exactly when the
    checks of [register] on deadline and capacity pass, and the button
    reads 'Register Now' exactly when it is enabled.  When the competition
    is both full and past its deadline the button reads 'Competition Full',
    while [register] would answer DeadlineExceeded. *)
Theorem button_follows_register (env : Env) (db : Db) (i : Id)
    (v : CompetitionView) :
  findOne db i = Ok v ->
  (button_disabled false v (now env) = false <->
   check_competition env (findUnique_competition (store_of db) i)
     (count_registrations (store_of db) i)
   = Ok (competition (view_row v)))
  /\ (button_label false v (now env) = "Register Now" <->
      button_disabled false v (now env) = false)
  /\ button_disabled true v (now env) = true
  /\ (isFull v = true -> isDeadlinePassed v (now env) = true ->
      button_label false v (now env) = "Competition Full"
      /\ forall q u,
           register env (store_of db) q i u None
           = (Throw DeadlineExceeded, store_of db, q)).
Proof.
  intros H. apply findOne_ok in H. destruct H as (Hf & Hd & Hcount).
  unfold button_disabled, button_label, isFull, isDeadlinePassed.
  rewrite Hcount, findUnique_competition_store_of, Hf. simpl.
  unfold check_competition. rewrite Hd, Z.gtb_ltb.
  set (full := count_registrations (store_of db) i
               >=? capacity (competition (view_row v))).
  set (late := regDeadline (competition (view_row v)) <? now env).
  split; [|split; [|split]].
  - destruct full, late; simpl; split; intros; congruence.
  - destruct full, late; simpl; split; intros; congruence.
  - reflexivity.
  - intros -> Hl. split; [reflexivity|]. intros q u.
    rewrite (register_no_hit env (store_of db) q i u None eq_refl).
    unfold admission, check_competition.
    rewrite findUnique_competition_store_of, Hf. simpl.
    rewrite Hd, Z.gtb_ltb. fold late. rewrite Hl. reflexivity.
Qed.

Lemma button_follows_register_witness :
  button_label false
    {| view_row := hackathon_row 1;
       view_organizer := Some alice_row;
       view_registrations :=
         Some [{| participant_row := registration_of "r1" "u2" None 10;
                  participant_user := Some charlie |}];
       view_count := Some 1 |} 2000
  = "Competition Full"
  /\ register (env_at 2000 "r9")
       (store_of (db0 1 [registration_of "r1" "u2" None 10])) queue0
       "c1" "u3" None
     = (Throw DeadlineExceeded,
        store_of (db0 1 [registration_of "r1" "u2" None 10]), queue0).
Proof.
  destruct (button_follows_register (env_at 2000 "r9")
              (db0 1 [registration_of "r1" "u2" None 10]) "c1"
              {| view_row := hackathon_row 1;
                 view_organizer := Some alice_row;
                 view_registrations :=
                   Some [{| participant_row := registration_of "r1" "u2" None 10;
                            participant_user := Some charlie |}];
                 view_count := Some 1 |} eq_refl)
    as (_ & _ & _ & H).
  destruct (H eq_refl eq_refl) as [Hl Hr].
  split; [exact Hl | apply Hr].
Defined.
